(** * Fuchsia executor backend: coverage collection, return-code
      normalisation and call reports

    A shallow embedding of [executor/executor_fuchsia.h].  Machine integers
    are [Z] with their wrap-around written out, the fixed-capacity tables of
    [cover_ctx] are index-to-value maps guarded by explicit bounds checks,
    and the code that talks to the kernel, to the coverage file and to the
    control pipe runs in a small state-and-failure monad. *)

From Stdlib Require Import ZArith List Sorted String Ascii Bool Lia.
Import ListNotations.
Local Open Scope Z_scope.

(** ** Machine integers *)

Module Int.

(** [uint32_t], [uint64_t]/[size_t] and [intptr_t] on the LP64 targets
    Fuchsia supports. *)
Definition u32 (z : Z) : Z := z mod 2 ^ 32.
Definition u64 (z : Z) : Z := z mod 2 ^ 64.
Definition intptr (z : Z) : Z := (z + 2 ^ 63) mod 2 ^ 64 - 2 ^ 63.

Definition sizeof_uint32_t : Z := 4.
Definition sizeof_uint64_t : Z := 8.

End Int.
Import Int.

(** ** Constants of the file *)

Definition MAX_COVSZ : Z := Z.shiftl 1 20.

(** In x86_64, sancov stores the return address - 1. *)
Definition kPcFixup : Z := 1.

Definition kCovPcsFileName : string := "/boot/kernel/data/zircon.elf.1.sancov".

(** Modelled from the spec: the kernel's success status [ZX_OK] comes from
    <zircon/types.h>, which is not part of this file; the spec opposes it to
    "any other non-zero raw result", so it is zero. *)
Definition ZX_OK : Z := 0.

(** ** Fixed-capacity tables *)

(** A C array [T a[MAX_COVSZ]]: its contents by index.  Capacity is not part
    of the value; every access goes through [in_bounds]. *)
Definition table := Z -> Z.

Definition in_bounds (i : Z) : bool := (0 <=? i) && (i <? MAX_COVSZ).

Definition table_set (t : table) (i v : Z) : table :=
  fun j => if j =? i then v else t j.

(** Copy of [n] leading elements of [src] over those of [dst]
    ([fread], [zx_vmo_read]). *)
Definition table_blit (src dst : table) (n : Z) : table :=
  fun j => if (0 <=? j) && (j <? n) then src j else dst j.

(** The first [n] elements, as a sequence. *)
Definition table_prefix (t : table) (n : nat) : list Z :=
  map (fun j => t (Z.of_nat j)) (seq 0 n).

Definition table_of_list (l : list Z) : table :=
  fun j => if j <? 0 then 0 else nth (Z.to_nat j) l 0.

(** ** Program state *)

Record cover_ctx := {
  base_covcount : table;
  curr_covcount : table;
  pc_table : table;
  real_coverage_truncated : table;
  total_pcs : Z;
  covcount_vmo : Z
}.

(** What [cover_t::data] can point at. *)
Inductive data_ptr := NullData | RealCoverageTruncated.

(** The fields of the executor's [cover_t] that this file touches. *)
Record cover_t := {
  size : Z;
  data : data_ptr
}.

(** The executor's per-call record [thread_t]; [th_addr] stands for the
    address of the object, which is what [th != last_scheduled] compares. *)
Record thread_t := {
  th_addr : Z;
  call_index : Z;
  call_num : Z;
  res : Z;
  reserrno : Z;
  fault_injected : bool;
  cov : cover_t
}.

(** The wire record [call_reply]. *)
Record call_reply := {
  header_magic : Z;
  header_done : Z;
  header_status : Z;
  reply_call_index : Z;
  reply_call_num : Z;
  reply_reserrno : Z;
  reply_flags : Z;
  signal_size : Z;
  cover_size : Z;
  comps_size : Z
}.

(** One [write] on the control pipe: the buffer handed over, the byte count
    asked for and the count the call returned. *)
Inductive buffer :=
| BufReply (r : call_reply)
| BufTable (words : list Z).

Record write_event := {
  ev_buf : buffer;
  ev_count : Z;
  ev_ret : Z
}.

Record state := {
  cover : cover_ctx;              (* static __thread cover_ctx cover *)
  errno : Z;
  vmo : table;                    (* contents of the counter region *)
  last_scheduled : Z;
  flag_coverage : bool;
  flag_collect_cover : bool;
  pipe : list write_event         (* writes on kOutPipeFd, oldest first *)
}.

(** The environment at the time of one operation: the answers of the kernel,
    of the file system and of the pipe. *)
Record kernel := {
  coverage_ctl_status : Z -> Z;       (* by action: 1 enable, 2 fetch *)
  vmo_create_result : Z * Z;          (* status, new handle *)
  vmo_read_status : Z;
  live_covcount : table;              (* counters exposed by a fetch *)
  file_words : string -> option (list Z);  (* 64-bit items of a file *)
  write_result : nat -> Z -> Z        (* k-th write, count asked -> returned *)
}.

Definition set_cover (c : cover_ctx) (s : state) : state :=
  {| cover := c; errno := errno s; vmo := vmo s;
     last_scheduled := last_scheduled s; flag_coverage := flag_coverage s;
     flag_collect_cover := flag_collect_cover s; pipe := pipe s |}.

Definition set_errno (e : Z) (s : state) : state :=
  {| cover := cover s; errno := e; vmo := vmo s;
     last_scheduled := last_scheduled s; flag_coverage := flag_coverage s;
     flag_collect_cover := flag_collect_cover s; pipe := pipe s |}.

Definition set_vmo (v : table) (s : state) : state :=
  {| cover := cover s; errno := errno s; vmo := v;
     last_scheduled := last_scheduled s; flag_coverage := flag_coverage s;
     flag_collect_cover := flag_collect_cover s; pipe := pipe s |}.

Definition set_pipe (p : list write_event) (s : state) : state :=
  {| cover := cover s; errno := errno s; vmo := vmo s;
     last_scheduled := last_scheduled s; flag_coverage := flag_coverage s;
     flag_collect_cover := flag_collect_cover s; pipe := p |}.

(** ** The monad *)

(** A run returns normally, dies in [fail] with its message, or touches a
    table outside its capacity; each outcome keeps the state reached. *)
Inductive outcome (A : Type) :=
| Done (a : A) (s : state)
| Fatal (msg : string) (s : state)
| OutOfBounds (s : state).
Arguments Done {A} a s.
Arguments Fatal {A} msg s.
Arguments OutOfBounds {A} s.

Definition final_state {A} (o : outcome A) : state :=
  match o with
  | Done _ s => s
  | Fatal _ s => s
  | OutOfBounds s => s
  end.

Definition exec (A : Type) := state -> outcome A.

Definition ret {A} (a : A) : exec A := fun s => Done a s.

Definition bind {A B} (m : exec A) (f : A -> exec B) : exec B :=
  fun s => match m s with
           | Done a s' => f a s'
           | Fatal msg s' => Fatal msg s'
           | OutOfBounds s' => OutOfBounds s'
           end.

Definition fail {A} (msg : string) : exec A := fun s => Fatal msg s.

Definition get : exec state := fun s => Done s s.
Definition modify (f : state -> state) : exec unit := fun s => Done tt (f s).

Notation "x <- m ;; k" := (bind m (fun x => k))
  (at level 61, m at next level, right associativity).
Notation "m ;;; k" := (bind m (fun _ => k))
  (at level 61, right associativity).

(** Element access to the tables of [cover]. *)
Definition load (field : cover_ctx -> table) (i : Z) : exec Z :=
  fun s => if in_bounds i then Done (field (cover s) i) s else OutOfBounds s.

Definition set_base_covcount (t : table) (c : cover_ctx) : cover_ctx :=
  {| base_covcount := t; curr_covcount := curr_covcount c;
     pc_table := pc_table c;
     real_coverage_truncated := real_coverage_truncated c;
     total_pcs := total_pcs c; covcount_vmo := covcount_vmo c |}.

Definition set_curr_covcount (t : table) (c : cover_ctx) : cover_ctx :=
  {| base_covcount := base_covcount c; curr_covcount := t;
     pc_table := pc_table c;
     real_coverage_truncated := real_coverage_truncated c;
     total_pcs := total_pcs c; covcount_vmo := covcount_vmo c |}.

Definition set_pc_table (t : table) (c : cover_ctx) : cover_ctx :=
  {| base_covcount := base_covcount c; curr_covcount := curr_covcount c;
     pc_table := t;
     real_coverage_truncated := real_coverage_truncated c;
     total_pcs := total_pcs c; covcount_vmo := covcount_vmo c |}.

Definition set_real_coverage_truncated (t : table) (c : cover_ctx) : cover_ctx :=
  {| base_covcount := base_covcount c; curr_covcount := curr_covcount c;
     pc_table := pc_table c;
     real_coverage_truncated := t;
     total_pcs := total_pcs c; covcount_vmo := covcount_vmo c |}.

Definition set_total_pcs (n : Z) (c : cover_ctx) : cover_ctx :=
  {| base_covcount := base_covcount c; curr_covcount := curr_covcount c;
     pc_table := pc_table c;
     real_coverage_truncated := real_coverage_truncated c;
     total_pcs := n; covcount_vmo := covcount_vmo c |}.

Definition set_covcount_vmo (h : Z) (c : cover_ctx) : cover_ctx :=
  {| base_covcount := base_covcount c; curr_covcount := curr_covcount c;
     pc_table := pc_table c;
     real_coverage_truncated := real_coverage_truncated c;
     total_pcs := total_pcs c; covcount_vmo := h |}.

(** A destination of the snapshot readers: one of the 64-bit tables of
    [cover], passed in the source as a [uint64_t*]. *)
Inductive dst_table := BaseCovcount | CurrCovcount | PcTable.

Definition dst_get (d : dst_table) : cover_ctx -> table :=
  match d with
  | BaseCovcount => base_covcount
  | CurrCovcount => curr_covcount
  | PcTable => pc_table
  end.

Definition dst_set (d : dst_table) : table -> cover_ctx -> cover_ctx :=
  match d with
  | BaseCovcount => set_base_covcount
  | CurrCovcount => set_curr_covcount
  | PcTable => set_pc_table
  end.

(** Bulk store of [n] elements at the start of [d]. *)
Definition blit_into (d : dst_table) (src : table) (n : Z) : exec unit :=
  fun s => if n <=? MAX_COVSZ
           then Done tt (set_cover (dst_set d (table_blit src (dst_get d (cover s)) n)
                                              (cover s)) s)
           else OutOfBounds s.

Definition store_real_coverage_truncated (i v : Z) : exec unit :=
  fun s => if in_bounds i
           then Done tt (set_cover (set_real_coverage_truncated
                                      (table_set (real_coverage_truncated (cover s)) i v)
                                      (cover s)) s)
           else OutOfBounds s.

(** ** Snapshot readers and the coverage life cycle *)

Definition cover_open (cov : cover_t) (extra : bool) : exec unit := ret tt.

Definition cover_enable (k : kernel) (cov : cover_t) (collect_comps extra : bool)
  : exec unit :=
  let status := coverage_ctl_status k 1 in
  if negb (status =? ZX_OK) then fail "failed to enable coverage. err: %d\n" else
  let status := fst (vmo_create_result k) in
  if negb (status =? ZX_OK) then fail "failed to create covcount vmo. err: %d\n" else
  s <- get ;;
  modify (set_cover (set_covcount_vmo (snd (vmo_create_result k)) (cover s))).

(** [fread(dst, sizeof(uint64_t), elems, f)]: the number of items
    transferred, at most [elems] and at most what the file holds. *)
Definition fread_count (words : list Z) (elems : Z) : Z :=
  Z.min elems (Z.of_nat (List.length words)).

Definition snapshot_sancov (k : kernel) (dst : dst_table) (elems : Z)
                           (filename : string) : exec Z :=
  match file_words k filename with
  | None => fail "could not open coverage file '%s'"
  | Some words =>
      let n := fread_count words elems in
      blit_into dst (table_of_list words) n ;;;
      if n =? elems then fail "pc table is too small. make it bigger."
      else ret n
  end.

Definition snapshot_pctable (k : kernel) (dst : dst_table) (elems : Z) : exec Z :=
  snapshot_sancov k dst elems kCovPcsFileName.

Definition snapshot_covcount (k : kernel) (dst : dst_table) (elems : Z) : exec unit :=
  let status := coverage_ctl_status k 2 in
  if negb (status =? ZX_OK) then fail "failed to fetch coverage. err: %d\n" else
  modify (set_vmo (live_covcount k)) ;;;
  let status := vmo_read_status k in
  if negb (status =? ZX_OK) then fail "failed to copy coverage. err: %d\n" else
  s <- get ;;
  blit_into dst (vmo s) elems.

Definition cover_reset (k : kernel) (cov : cover_t) : exec unit :=
  snapshot_covcount k BaseCovcount MAX_COVSZ.

(** The value stored for a hit at program counter [pc]:
    [static_cast<uint32_t>((pc + kPcFixup) & 0xFFFFFFFF)]. *)
Definition fixup_truncate (pc : Z) : Z :=
  u32 (Z.land (u64 (pc + kPcFixup)) 0xFFFFFFFF).

(** [for (size_t i = ...; i < cov_size; i++)] with [todo = cov_size - i]
    iterations left. *)
Fixpoint cover_collect_loop (todo : nat) (i num_pcs : Z) : exec Z :=
  match todo with
  | O => ret num_pcs
  | S todo' =>
      pc <- load pc_table i ;;
      if pc =? 0 then cover_collect_loop todo' (u64 (i + 1)) num_pcs else
      b <- load base_covcount i ;;
      c <- load curr_covcount i ;;
      if b =? c then cover_collect_loop todo' (u64 (i + 1)) num_pcs else
      store_real_coverage_truncated num_pcs (fixup_truncate pc) ;;;
      cover_collect_loop todo' (u64 (i + 1)) (u64 (num_pcs + 1))
  end.

(** [cov] is the caller's [cover_t], returned updated.  Its [size] field is
    declared by the executor proper and holds every count up to
    [MAX_COVSZ] exactly. *)
Definition cover_collect (k : kernel) (cov : cover_t) : exec cover_t :=
  snapshot_covcount k CurrCovcount MAX_COVSZ ;;;
  cov_size <- snapshot_pctable k PcTable MAX_COVSZ ;;
  s <- get ;;
  modify (set_cover (set_total_pcs cov_size (cover s))) ;;;
  num_pcs <- cover_collect_loop (Z.to_nat cov_size) 0 0 ;;
  ret {| size := num_pcs; data := RealCoverageTruncated |}.

Definition cover_protect (cov : cover_t) : exec unit := ret tt.

(** The hit table a [cover_t] lends out: [size] 32-bit values behind
    [data], as they stand in [s]. *)
Definition borrowed_hits (cov : cover_t) (s : state) : option (list Z) :=
  match data cov with
  | RealCoverageTruncated =>
      if (0 <=? size cov) && (size cov <=? MAX_COVSZ)
      then Some (table_prefix (real_coverage_truncated (cover s)) (Z.to_nat (size cov)))
      else None
  | NullData => if size cov =? 0 then Some [] else None
  end.

(** ** Return-code normalisation *)

Definition code (c : ascii) : Z := Z.of_N (N_of_ascii c).

(** [strcmp] and [strncmp] on NUL-terminated strings: a [string] holds the
    characters before the terminator, and a NUL inside it ends the
    comparison as the terminator would. *)
Fixpoint strcmp (s1 s2 : string) : Z :=
  match s1, s2 with
  | EmptyString, EmptyString => 0
  | EmptyString, String c2 _ => 0 - code c2
  | String c1 _, EmptyString => code c1 - 0
  | String c1 r1, String c2 r2 =>
      if (code c1 =? code c2) && negb (code c1 =? 0)
      then strcmp r1 r2 else code c1 - code c2
  end.

Fixpoint strncmp (s1 s2 : string) (n : nat) {struct n} : Z :=
  match n with
  | O => 0
  | S n' =>
      match s1, s2 with
      | EmptyString, EmptyString => 0
      | EmptyString, String c2 _ => 0 - code c2
      | String c1 _, EmptyString => code c1 - 0
      | String c1 r1, String c2 r2 =>
          if (code c1 =? code c2) && negb (code c1 =? 0)
          then strncmp r1 r2 n' else code c1 - code c2
      end
  end.

(** The executor's call descriptor: the name and the native callable of
    [kMaxArgs] = 9 arguments, which may do anything to the state. *)
Record call_t := {
  name : string;
  call : Z -> Z -> Z -> Z -> Z -> Z -> Z -> Z -> Z -> exec Z
}.

Definition execute_syscall (c : call_t) (a : nat -> Z) : exec Z :=
  res <- call c (a 0%nat) (a 1%nat) (a 2%nat) (a 3%nat) (a 4%nat)
                (a 5%nat) (a 6%nat) (a 7%nat) (a 8%nat) ;;
  if strncmp (name c) "zx_" 3 =? 0 then
    if (res =? ZX_OK)
       || (strcmp (name c) "zx_debuglog_read" =? 0)
       || (strcmp (name c) "zx_clock_get" =? 0)
       || (strcmp (name c) "zx_clock_get_monotonic" =? 0)
       || (strcmp (name c) "zx_deadline_after" =? 0)
       || (strcmp (name c) "zx_ticks_get" =? 0)
    then ret 0
    else
      modify (set_errno (Z.land (intptr (- res)) 0x7f)) ;;;
      ret (-1)
  else
    if res =? 0xffffffff then ret (intptr (-1)) else ret res.

(** ** Call reports *)

(** [write(kOutPipeFd, buf, count)]. *)
Definition write (k : kernel) (buf : buffer) (count : Z) : exec Z :=
  fun s =>
    let r := write_result k (List.length (pipe s)) count in
    Done r (set_pipe (pipe s ++ [{| ev_buf := buf; ev_count := count; ev_ret := r |}]) s).

(** The bytes behind [th->cov.data] when they are handed to [write]. *)
Definition read_hits (cov : cover_t) : exec (list Z) :=
  fun s => match borrowed_hits cov s with
           | Some hits => Done hits s
           | None => OutOfBounds s
           end.

(** [flags & f], as a truth value. *)
Definition has_flag (flags f : Z) : bool := negb (Z.land flags f =? 0).

Section Reporter.

(** Declared by the executor proper: the bits of the flag set, the magic
    of the wire protocol and the size of a reply header. *)
Variables call_flag_executed call_flag_finished : Z.
Variables call_flag_blocked call_flag_fault_injected : Z.
Variable kOutMagic : Z.
Variable sizeof_call_reply : Z.

(** The header [write_call_output] fills in before its first [write]. *)
Definition build_reply (th : thread_t) (finished : bool) (s : state) : call_reply :=
  let reserrno0 := 999 in
  let blocked := negb (th_addr th =? last_scheduled s) in
  let call_flags0 :=
    Z.lor call_flag_executed (if blocked then call_flag_blocked else 0) in
  let reserrno1 :=
    if finished then (if negb (res th =? -1) then 0 else reserrno th)
    else reserrno0 in
  let call_flags1 :=
    if finished
    then Z.lor call_flags0
           (Z.lor call_flag_finished
              (if fault_injected th then call_flag_fault_injected else 0))
    else call_flags0 in
  {| header_magic := kOutMagic;
     header_done := 0;
     header_status := 0;
     reply_call_index := call_index th;
     reply_call_num := call_num th;
     reply_reserrno := reserrno1;
     reply_flags := call_flags1;
     signal_size := if flag_coverage s then size (cov th) else 0;
     cover_size := if flag_coverage s
                   then (if flag_collect_cover s then size (cov th) else 0)
                   else 0;
     comps_size := 0 |}.

Definition write_call_output (k : kernel) (th : thread_t) (finished : bool)
  : exec unit :=
  s <- get ;;
  let reply := build_reply th finished s in
  wrote <- write k (BufReply reply) sizeof_call_reply ;;
  if negb (u64 wrote =? u64 sizeof_call_reply)
  then fail "control pipe call write failed" else
  if flag_coverage s then
    hits <- read_hits (cov th) ;;
    wrote <- write k (BufTable hits) (u64 (size (cov th) * sizeof_uint32_t)) ;;
    if negb (u64 wrote =? u64 (sizeof_uint32_t * size (cov th)))
    then fail "signals table write failed. Wrote %zd\n" else
    if negb (flag_collect_cover s) then ret tt else
    hits <- read_hits (cov th) ;;
    wrote <- write k (BufTable hits) (u64 (size (cov th) * sizeof_uint32_t)) ;;
    if negb (u64 wrote =? u64 (sizeof_uint32_t * size (cov th)))
    then fail "coverage table write failed. Wrote %zd\n" else
    ret tt
  else ret tt.

End Reporter.

(** ** Reference definitions for the statements *)

(** A slot counts as hit when it holds a location and its counter moved. *)
Definition slot_hit (pcs base curr : table) (i : Z) : bool :=
  negb (pcs i =? 0) && negb (base i =? curr i).

(** The hit slots among [first], [first+1], ..., [first+n-1], in index
    order. *)
Definition hit_slots (pcs base curr : table) (first : Z) (n : nat) : list Z :=
  filter (slot_hit pcs base curr) (map (fun j => first + Z.of_nat j) (seq 0 n)).

(** The reported form of a location, in the words of the specification. *)
Definition reported (v : Z) : Z := Z.land (v + 1) 0xFFFFFFFF.

(** The kernel answers that let [cover_collect] run to its end: the fetch and
    the copy succeed, and the coverage file opens and holds [words], fewer
    than the capacity. *)
Definition collect_succeeds (k : kernel) (words : list Z) : Prop :=
  coverage_ctl_status k 2 = ZX_OK /\
  vmo_read_status k = ZX_OK /\
  file_words k kCovPcsFileName = Some words /\
  Z.of_nat (List.length words) < MAX_COVSZ.

(** The state [cover_collect] starts its loop in. *)
Definition snapshot_state (k : kernel) (words : list Z) (s : state) : state :=
  let s1 := set_vmo (live_covcount k) s in
  let c1 := set_curr_covcount
              (table_blit (live_covcount k) (curr_covcount (cover s)) MAX_COVSZ)
              (cover s) in
  let n := Z.of_nat (List.length words) in
  let c2 := set_pc_table (table_blit (table_of_list words) (pc_table c1) n) c1 in
  set_cover (set_total_pcs n c2) s1.

Definition with_hits (t : table) (s : state) : state :=
  set_cover (set_real_coverage_truncated t (cover s)) s.

(** A call is kernel-native when its name begins with the prefix. *)
Definition kernel_native (nm : string) : Prop :=
  exists rest : string, nm = ("zx_" ++ rest)%string.

(** The calls whose raw result is not a status code. *)
Definition allow_list : list string :=
  [ "zx_debuglog_read"; "zx_clock_get"; "zx_clock_get_monotonic";
    "zx_deadline_after"; "zx_ticks_get" ]%string.

(** A [string] is the body of a C string when no NUL occurs in it. *)
Fixpoint no_nul (s : string) : bool :=
  match s with
  | EmptyString => true
  | String c r => negb (code c =? 0) && no_nul r
  end.

(** The raw result of the native callable of [c] on the arguments [a]. *)
Definition raw_call (c : call_t) (a : nat -> Z) : exec Z :=
  call c (a 0%nat) (a 1%nat) (a 2%nat) (a 3%nat) (a 4%nat)
         (a 5%nat) (a 6%nat) (a 7%nat) (a 8%nat).

(** What a collection hands to its caller: the result size and the hit
    table behind the result, if the run returns. *)
Definition collected (k : kernel) (cov : cover_t) (s : state) : option (Z * list Z) :=
  match cover_collect k cov s with
  | Done cov' s' =>
      match borrowed_hits cov' s' with
      | Some hits => Some (size cov', hits)
      | None => None
      end
  | _ => None
  end.

(** A pipe event that carries a hit table, and one that was written in
    full. *)
Definition is_table (e : write_event) : Prop :=
  exists words, ev_buf e = BufTable words.

Definition sent (b : buffer) (count : Z) : write_event :=
  {| ev_buf := b; ev_count := count; ev_ret := count |}.

(** A pipe that takes every write whole. *)
Definition pipe_accepts (k : kernel) : Prop :=
  forall n count, write_result k n count = count.

(** ** Sample runs *)

Module Sample.

Definition zeros : table := fun _ => 0.

(** Two instrumented locations [A] and [B]; the baseline counts are
    [A:0, B:5] and the counts after the call [A:0, B:6]. *)
Definition loc_A : Z := 0xffffffff00100000.
Definition loc_B : Z := 0xffffffff00100abc.

Definition kern_of (words counts : list Z) : kernel :=
  {| coverage_ctl_status := fun _ => ZX_OK;
     vmo_create_result := (ZX_OK, 7);
     vmo_read_status := ZX_OK;
     live_covcount := table_of_list counts;
     file_words := fun f => if String.eqb f kCovPcsFileName
                            then Some words else None;
     write_result := fun _ count => count |}.

Definition kern : kernel := kern_of [loc_A; loc_B] [0; 6].

(** Locations at the 32-bit boundary, both with moved counters. *)
Definition kern_boundary : kernel := kern_of [0xFFFFFFFF; 0x100000000] [1; 6].

(** A coverage file that cannot be opened. *)
Definition kern_nofile : kernel :=
  {| coverage_ctl_status := fun _ => ZX_OK;
     vmo_create_result := (ZX_OK, 7);
     vmo_read_status := ZX_OK;
     live_covcount := zeros;
     file_words := fun _ => None;
     write_result := fun _ count => count |}.

Definition start : state :=
  {| cover := {| base_covcount := table_of_list [0; 5];
                 curr_covcount := zeros;
                 pc_table := zeros;
                 real_coverage_truncated := zeros;
                 total_pcs := 0;
                 covcount_vmo := 7 |};
     errno := 0;
     vmo := zeros;
     last_scheduled := 0x1000;
     flag_coverage := true;
     flag_collect_cover := true;
     pipe := [] |}.

Definition cov0 : cover_t := {| size := 0; data := NullData |}.

(** A callable that ignores its arguments and returns [r]. *)
Definition returning (nm : string) (r : Z) : call_t :=
  {| name := nm; call := fun _ _ _ _ _ _ _ _ _ => ret r |}.

Definition args : nat -> Z := fun _ => 0.

(** A call record that ended well, reporting from the thread scheduled
    last, and one that failed with a fault injected. *)
Definition th_ok : thread_t :=
  {| th_addr := 0x1000; call_index := 3; call_num := 42; res := 0;
     reserrno := 0; fault_injected := false; cov := cov0 |}.

Definition th_failed : thread_t :=
  {| th_addr := 0x2000; call_index := 4; call_num := 43; res := -1;
     reserrno := 14; fault_injected := true; cov := cov0 |}.

(** The record of a call reported right after the collection of [kern]
    from [start]. *)
Definition after_collect : state :=
  final_state (cover_collect kern cov0 start).

Definition collected_cov : cover_t :=
  match cover_collect kern cov0 start with
  | Done c _ => c
  | _ => cov0
  end.

Definition th_collected : thread_t :=
  {| th_addr := 0x1000; call_index := 0; call_num := 7; res := 0;
     reserrno := 0; fault_injected := false; cov := collected_cov |}.

(** Sample values for what the executor proper declares. *)
Definition flag_executed : Z := Z.shiftl 1 0.
Definition flag_finished : Z := Z.shiftl 1 1.
Definition flag_blocked : Z := Z.shiftl 1 2.
Definition flag_fault_injected : Z := Z.shiftl 1 3.
Definition magic : Z := 0xbadf00d.
Definition reply_bytes : Z := 40.

Definition reply_of : thread_t -> bool -> state -> call_reply :=
  build_reply flag_executed flag_finished flag_blocked flag_fault_injected magic.

Definition report : kernel -> thread_t -> bool -> exec unit :=
  write_call_output flag_executed flag_finished flag_blocked flag_fault_injected
                    magic reply_bytes.

End Sample.

(** ** Reference definitions for the life cycle *)

(** The counter fetch behind a snapshot succeeds: the kernel refreshes the
    region and the copy out of it goes through. *)
Definition fetch_succeeds (k : kernel) : Prop :=
  coverage_ctl_status k 2 = ZX_OK /\ vmo_read_status k = ZX_OK.

(** The hit slots and the hit values in terms of what goes in: the
    location file [words], the counters [before] and the counters
    [after]. *)
Definition observed_slots (words : list Z) (before after : table) : list Z :=
  hit_slots (table_of_list words) before after 0 (List.length words).

Definition observed_hits (words : list Z) (before after : table) : list Z :=
  map (fun i => fixup_truncate (nth (Z.to_nat i) words 0))
      (observed_slots words before after).

(** The rest of the state once the [cover] context and the counter region
    are set aside. *)
Definition same_globals (s s' : state) : Prop :=
  errno s' = errno s /\ last_scheduled s' = last_scheduled s /\
  flag_coverage s' = flag_coverage s /\
  flag_collect_cover s' = flag_collect_cover s /\ pipe s' = pipe s.

(** The executor's scheduling and coverage settings. *)
Definition same_settings (s s' : state) : Prop :=
  last_scheduled s' = last_scheduled s /\
  flag_coverage s' = flag_coverage s /\
  flag_collect_cover s' = flag_collect_cover s.

(** More sample inputs. *)
Module Scenario.

(** The kernel at reset time of the two-location scenario. *)
Definition kern_before : kernel :=
  Sample.kern_of [Sample.loc_A; Sample.loc_B] [0; 5].

(** A later kernel: three locations, the first and the last moved. *)
Definition kern_later : kernel :=
  Sample.kern_of [Sample.loc_A; Sample.loc_B; 0x2000] [3; 5; 1].

(** A kernel that refuses to enable coverage, and one that has no region
    to give. *)
Definition kern_no_coverage : kernel :=
  {| coverage_ctl_status := fun _ => -2;
     vmo_create_result := (ZX_OK, 7);
     vmo_read_status := ZX_OK;
     live_covcount := Sample.zeros;
     file_words := fun _ => None;
     write_result := fun _ count => count |}.

Definition kern_no_vmo : kernel :=
  {| coverage_ctl_status := fun _ => ZX_OK;
     vmo_create_result := (-4, 0);
     vmo_read_status := ZX_OK;
     live_covcount := Sample.zeros;
     file_words := fun _ => None;
     write_result := fun _ count => count |}.

(** A pipe that is closed, and one that takes the header and then cuts
    every write short. *)
Definition kern_closed_pipe : kernel :=
  {| coverage_ctl_status := fun _ => ZX_OK;
     vmo_create_result := (ZX_OK, 7);
     vmo_read_status := ZX_OK;
     live_covcount := Sample.zeros;
     file_words := fun _ => None;
     write_result := fun _ _ => -1 |}.

Definition kern_short_pipe : kernel :=
  {| coverage_ctl_status := fun _ => ZX_OK;
     vmo_create_result := (ZX_OK, 7);
     vmo_read_status := ZX_OK;
     live_covcount := Sample.zeros;
     file_words := fun _ => None;
     write_result := fun n count => if Nat.eqb n 0 then count else 0 |}.

End Scenario.

(** ** Integer facts *)

Lemma fixup_truncate_reported (v : Z) : fixup_truncate v = reported v.
Proof.
  unfold fixup_truncate, reported, u32, u64, kPcFixup.
  change 0xFFFFFFFF with (Z.ones 32).
  rewrite !Z.land_ones by lia.
  rewrite Z.mod_mod by lia.
  apply Z.mod_mod_divide.
  exists (2 ^ 32). reflexivity.
Qed.

Lemma reported_range (v : Z) : 0 <= reported v < 2 ^ 32.
Proof.
  unfold reported. change 0xFFFFFFFF with (Z.ones 32).
  rewrite Z.land_ones by lia. apply Z.mod_pos_bound. lia.
Qed.

Lemma land_intptr_7f (x : Z) : Z.land (intptr x) 0x7f = Z.land x 0x7f.
Proof.
  unfold intptr. change 0x7f with (Z.ones 7).
  rewrite !Z.land_ones by lia.
  rewrite (Z.mod_eq (x + 2 ^ 63) (2 ^ 64)) by lia.
  replace (x + 2 ^ 63 - 2 ^ 64 * ((x + 2 ^ 63) / 2 ^ 64) - 2 ^ 63)
    with (x + (- (2 ^ 57 * ((x + 2 ^ 63) / 2 ^ 64))) * 2 ^ 7) by lia.
  apply Z_mod_plus_full.
Qed.

Lemma u64_small (z : Z) : 0 <= z <= MAX_COVSZ -> u64 z = z.
Proof.
  unfold u64, MAX_COVSZ. intros H. apply Z.mod_small.
  change (Z.shiftl 1 20) with 1048576 in H. lia.
Qed.

(** ** The collection loop *)

Lemma hit_slots_S (pcs base curr : table) (first : Z) (n : nat) :
  hit_slots pcs base curr first (S n) =
  (if slot_hit pcs base curr first then [first] else [])
    ++ hit_slots pcs base curr (first + 1) n.
Proof.
  unfold hit_slots. rewrite <- cons_seq, <- seq_shift, map_cons, map_map.
  cbn [filter]. rewrite Z.add_0_r.
  rewrite (map_ext (fun j => first + Z.of_nat (S j))
                   (fun j => first + 1 + Z.of_nat j)) by (intros; lia).
  destruct (slot_hit pcs base curr first); reflexivity.
Qed.

Lemma hit_slots_range (pcs base curr : table) (first : Z) (n : nat) (i : Z) :
  In i (hit_slots pcs base curr first n) <->
  first <= i < first + Z.of_nat n /\ pcs i <> 0 /\ base i <> curr i.
Proof.
  unfold hit_slots, slot_hit. rewrite filter_In, in_map_iff.
  rewrite andb_true_iff, !negb_true_iff, !Z.eqb_neq. split.
  - intros [[j [<- Hj]] H]. apply in_seq in Hj. split; [lia | exact H].
  - intros [Hi H]. split; [| exact H].
    exists (Z.to_nat (i - first)). split; [lia |]. apply in_seq. lia.
Qed.

Lemma hit_slots_length (pcs base curr : table) (first : Z) (n : nat) :
  (List.length (hit_slots pcs base curr first n) <= n)%nat.
Proof.
  unfold hit_slots.
  etransitivity; [apply filter_length_le |].
  rewrite length_map, length_seq. reflexivity.
Qed.

Lemma hit_slots_sorted (pcs base curr : table) (n : nat) :
  forall first, StronglySorted Z.lt (hit_slots pcs base curr first n).
Proof.
  induction n as [| n IH]; intros first.
  - constructor.
  - rewrite hit_slots_S. destruct (slot_hit pcs base curr first); cbn [app].
    + constructor; [apply IH |].
      apply Forall_forall. intros j Hj. apply hit_slots_range in Hj. lia.
    + apply IH.
Qed.

Lemma in_bounds_true (i : Z) : 0 <= i < MAX_COVSZ -> in_bounds i = true.
Proof.
  intros H. unfold in_bounds. apply andb_true_iff. split; [apply Z.leb_le | apply Z.ltb_lt]; lia.
Qed.

Lemma with_hits_id (s : state) : with_hits (real_coverage_truncated (cover s)) s = s.
Proof. destruct s as [[] ? ? ? ? ? ?]. reflexivity. Qed.

Lemma cover_collect_loop_spec (todo : nat) :
  forall (i num : Z) (s : state),
    0 <= num <= i -> i + Z.of_nat todo <= MAX_COVSZ ->
    let c := cover s in
    let hs := hit_slots (pc_table c) (base_covcount c) (curr_covcount c) i todo in
    exists t' : table,
      cover_collect_loop todo i num s
        = Done (num + Z.of_nat (List.length hs)) (with_hits t' s) /\
      (forall j, j < num \/ num + Z.of_nat (List.length hs) <= j ->
                 t' j = real_coverage_truncated c j) /\
      (forall m, (m < List.length hs)%nat ->
                 t' (num + Z.of_nat m) = fixup_truncate (pc_table c (nth m hs 0))).
Proof.
  induction todo as [| todo IH]; intros i num s Hnum Hcap c hs.
  - exists (real_coverage_truncated c). subst hs c. cbn.
    rewrite Z.add_0_r, with_hits_id.
    split; [reflexivity | split; [reflexivity | intros m Hm; lia]].
  - assert (Hin : in_bounds i = true) by (apply in_bounds_true; lia).
    assert (Hi1 : u64 (i + 1) = i + 1) by (apply u64_small; lia).
    subst hs. rewrite hit_slots_S.
    cbn [cover_collect_loop]. unfold bind at 1. unfold load at 1. rewrite Hin.
    fold c. unfold slot_hit.
    destruct (pc_table c i =? 0) eqn:Hpc; cbn [negb andb app].
    + rewrite Hi1. apply IH; lia.
    + unfold bind at 1. unfold load at 1. rewrite Hin.
      unfold bind at 1. unfold load at 1. rewrite Hin. fold c.
      destruct (base_covcount c i =? curr_covcount c i) eqn:Hbc; cbn [negb app].
      * rewrite Hi1. apply IH; lia.
      * assert (Hnb : in_bounds num = true) by (apply in_bounds_true; lia).
        unfold bind at 1. unfold store_real_coverage_truncated at 1. rewrite Hnb.
        rewrite Hi1, (u64_small (num + 1)) by lia. fold c.
        set (s1 := set_cover _ s).
        destruct (IH (i + 1) (num + 1) s1) as [t' [Hrun [Hframe Hhit]]]; [lia | lia |].
        change (cover s1) with
          (set_real_coverage_truncated
             (table_set (real_coverage_truncated c) num (fixup_truncate (pc_table c i))) c)
          in Hrun, Hframe, Hhit.
        cbn [pc_table base_covcount curr_covcount real_coverage_truncated
             set_real_coverage_truncated] in Hrun, Hframe, Hhit.
        set (hs := hit_slots (pc_table c) (base_covcount c) (curr_covcount c) (i + 1) todo)
          in *.
        exists t'. cbn [List.length].
        split; [| split].
        -- rewrite Hrun. f_equal. lia.
        -- intros j Hj. rewrite Hframe by lia. unfold table_set.
           destruct (j =? num) eqn:E; [apply Z.eqb_eq in E; lia | reflexivity].
        -- intros [| m] Hm.
           ++ cbn [nth]. rewrite Z.add_0_r, Hframe by lia. unfold table_set.
              rewrite Z.eqb_refl. reflexivity.
           ++ cbn [nth]. rewrite <- (Hhit m) by lia. f_equal. lia.
Qed.

(** ** A whole collection *)

Lemma fread_count_fits (words : list Z) :
  Z.of_nat (List.length words) < MAX_COVSZ ->
  fread_count words MAX_COVSZ = Z.of_nat (List.length words).
Proof. unfold fread_count. lia. Qed.

Lemma cover_collect_run (k : kernel) (cov : cover_t) (s : state) (words : list Z) :
  collect_succeeds k words ->
  let s0 := snapshot_state k words s in
  let c0 := cover s0 in
  let hs := hit_slots (pc_table c0) (base_covcount c0) (curr_covcount c0)
                      0 (List.length words) in
  exists t' : table,
    cover_collect k cov s
      = Done {| size := Z.of_nat (List.length hs); data := RealCoverageTruncated |}
             (with_hits t' s0) /\
    (forall j, Z.of_nat (List.length hs) <= j ->
               t' j = real_coverage_truncated (cover s) j) /\
    (forall m, (m < List.length hs)%nat ->
               t' (Z.of_nat m) = fixup_truncate (pc_table c0 (nth m hs 0))).
Proof.
  intros (Hctl & Hrd & Hfile & Hlen) s0 c0 hs.
  destruct (cover_collect_loop_spec (List.length words) 0 0 s0) as [t' [Hrun [Hframe Hhit]]];
    [lia | lia |].
  fold c0 in Hrun, Hframe, Hhit. fold hs in Hrun, Hframe, Hhit.
  exists t'. split; [| split].
  - unfold cover_collect, snapshot_covcount, snapshot_pctable, snapshot_sancov.
    rewrite Hctl, Hrd, Hfile, (fread_count_fits words Hlen).
    cbn [ZX_OK Z.eqb negb].
    unfold bind, modify, get, blit_into, ret.
    rewrite Z.leb_refl.
    replace (Z.of_nat (List.length words) <=? MAX_COVSZ) with true
      by (symmetry; apply Z.leb_le; lia).
    replace (Z.of_nat (List.length words) =? MAX_COVSZ) with false
      by (symmetry; apply Z.eqb_neq; lia).
    rewrite Nat2Z.id.
    change (cover_collect_loop (List.length words) 0 0 s0
            = Done (0 + Z.of_nat (List.length hs)) (with_hits t' s0)) in Hrun.
    cbn [dst_set dst_get cover set_cover set_vmo vmo].
    match goal with
    | |- context [cover_collect_loop _ 0 0 ?st] => change st with s0
    end.
    rewrite Hrun. reflexivity.
  - intros j Hj. rewrite Hframe by lia. reflexivity.
  - intros m Hm. rewrite <- (Hhit m Hm). reflexivity.
Qed.

Lemma cover_collect_cases (k : kernel) (cov : cover_t) (s : state) :
  (exists words, collect_succeeds k words) \/
  (exists msg s', cover_collect k cov s = Fatal msg s').
Proof.
  unfold collect_succeeds, cover_collect, snapshot_covcount, snapshot_pctable,
    snapshot_sancov.
  destruct (coverage_ctl_status k 2 =? ZX_OK) eqn:Hctl; cbn [negb];
    [| right; eexists; eexists; reflexivity].
  destruct (vmo_read_status k =? ZX_OK) eqn:Hrd; cbn [negb];
    [| right; eexists; eexists; reflexivity].
  apply Z.eqb_eq in Hctl, Hrd.
  destruct (file_words k kCovPcsFileName) as [words |] eqn:Hfile;
    [| right; unfold bind, modify, get, blit_into, fail; rewrite Z.leb_refl;
       eexists; eexists; reflexivity].
  destruct (Z.of_nat (List.length words) <? MAX_COVSZ) eqn:Hlen.
  - left. exists words. apply Z.ltb_lt in Hlen. auto.
  - right. apply Z.ltb_ge in Hlen.
    assert (Hn : fread_count words MAX_COVSZ = MAX_COVSZ) by (unfold fread_count; lia).
    rewrite Hn. unfold bind, modify, get, blit_into, fail.
    rewrite !Z.leb_refl, Z.eqb_refl. eexists; eexists; reflexivity.
Qed.

Lemma table_prefix_map (t : table) (f : Z -> Z) (l : list Z) :
  (forall m, (m < List.length l)%nat -> t (Z.of_nat m) = f (nth m l 0)) ->
  table_prefix t (List.length l) = map f l.
Proof.
  intros H. unfold table_prefix.
  apply (nth_ext _ _ (t 0) (f 0)).
  - rewrite !length_map, length_seq. reflexivity.
  - intros m Hm. rewrite length_map, length_seq in Hm.
    rewrite (map_nth f l 0 m).
    pose proof (map_nth (fun j => t (Z.of_nat j)) (seq 0 (List.length l)) 0%nat m) as E.
    cbv beta in E. change (Z.of_nat 0) with 0 in E. rewrite E.
    rewrite seq_nth by exact Hm. apply H. exact Hm.
Qed.

Lemma borrowed_hits_collected (t : table) (s : state) (l : list Z) (f : Z -> Z) :
  Z.of_nat (List.length l) <= MAX_COVSZ ->
  (forall m, (m < List.length l)%nat -> t (Z.of_nat m) = f (nth m l 0)) ->
  borrowed_hits {| size := Z.of_nat (List.length l); data := RealCoverageTruncated |}
                (with_hits t s)
  = Some (map f l).
Proof.
  intros Hcap H. unfold borrowed_hits. cbn [data size].
  replace (0 <=? Z.of_nat (List.length l)) with true by (symmetry; apply Z.leb_le; lia).
  replace (Z.of_nat (List.length l) <=? MAX_COVSZ) with true by (symmetry; apply Z.leb_le; lia).
  cbn [andb]. rewrite Nat2Z.id. f_equal.
  apply table_prefix_map. exact H.
Qed.

Lemma snapshot_state_tables (k : kernel) (words : list Z) (s : state) :
  let c0 := cover (snapshot_state k words s) in
  total_pcs c0 = Z.of_nat (List.length words) /\
  (forall i, 0 <= i < Z.of_nat (List.length words) ->
             pc_table c0 i = nth (Z.to_nat i) words 0) /\
  (forall i, 0 <= i < MAX_COVSZ -> curr_covcount c0 i = live_covcount k i) /\
  (forall i, base_covcount c0 i = base_covcount (cover s) i).
Proof.
  unfold snapshot_state.
  cbn [cover set_cover set_vmo total_pcs set_total_pcs pc_table set_pc_table
       curr_covcount set_curr_covcount base_covcount].
  split; [reflexivity | split; [| split]].
  - intros i Hi. unfold table_blit, table_of_list.
    replace (0 <=? i) with true by (symmetry; apply Z.leb_le; lia).
    replace (i <? Z.of_nat (List.length words)) with true by (symmetry; apply Z.ltb_lt; lia).
    replace (i <? 0) with false by (symmetry; apply Z.ltb_ge; lia).
    reflexivity.
  - intros i Hi. unfold table_blit.
    replace (0 <=? i) with true by (symmetry; apply Z.leb_le; lia).
    replace (i <? MAX_COVSZ) with true by (symmetry; apply Z.ltb_lt; lia).
    reflexivity.
  - reflexivity.
Qed.

(** Without the coverage file the collection dies before its loop. *)
Example cover_collect_nofile :
  exists s', cover_collect Sample.kern_nofile Sample.cov0 Sample.start
             = Fatal "could not open coverage file '%s'" s'.
Proof. eexists. reflexivity. Qed.

Lemma cover_collect_done (k : kernel) (cov cov' : cover_t) (s s' : state) :
  cover_collect k cov s = Done cov' s' ->
  0 <= size cov' <= MAX_COVSZ /\
  exists hits, borrowed_hits cov' s' = Some hits /\
               Z.of_nat (List.length hits) = size cov'.
Proof.
  intros Hdone.
  destruct (cover_collect_cases k cov s) as [[words Hrun] | [msg [s2 Hfatal]]];
    [| rewrite Hfatal in Hdone; discriminate Hdone].
  destruct (cover_collect_run k cov s words Hrun) as [t' [Hres [_ Hhit]]].
  destruct Hrun as (_ & _ & _ & Hlen).
  set (c0 := cover (snapshot_state k words s)) in *.
  pose proof (hit_slots_length (pc_table c0) (base_covcount c0) (curr_covcount c0)
                               0 (List.length words)) as Hle.
  remember (hit_slots (pc_table c0) (base_covcount c0) (curr_covcount c0)
                      0 (List.length words)) as hs eqn:Ehs in *.
  rewrite Hres in Hdone.
  assert (Hcov : cov' = {| size := Z.of_nat (List.length hs);
                           data := RealCoverageTruncated |}) by congruence.
  assert (Hst : s' = with_hits t' (snapshot_state k words s)) by congruence.
  subst cov' s'. cbn [size]. split; [lia |].
  exists (map (fun i => fixup_truncate (pc_table c0 i)) hs). split.
  - apply borrowed_hits_collected; [lia | exact Hhit].
  - rewrite length_map. reflexivity.
Qed.

(** ** Coverage differ: main results *)

(** C1.  For every location table, baseline and current snapshot on which
    the collection runs to its end, [cover_collect] returns, and its result
    is made of exactly the slots [i] of [[0, total_pcs)] with
    [pc_table[i] != 0] and [base_covcount[i] != curr_covcount[i]], one entry
    per such slot, in increasing index order; the result size is their
    number, and a slot whose counter equals its baseline value is not
    among them, whatever happened to the counter in between. *)
Theorem cover_collect_diff (k : kernel) (cov : cover_t) (s : state) (words : list Z)
    (Hrun : collect_succeeds k words) :
  exists (cov' : cover_t) (s' : state),
    cover_collect k cov s = Done cov' s' /\
    let c' := cover s' in
    let slots := hit_slots (pc_table c') (base_covcount c') (curr_covcount c')
                           0 (Z.to_nat (total_pcs c')) in
    total_pcs c' = Z.of_nat (List.length words) /\
    (forall i, 0 <= i < total_pcs c' -> pc_table c' i = nth (Z.to_nat i) words 0) /\
    (forall i, 0 <= i < total_pcs c' -> curr_covcount c' i = live_covcount k i) /\
    (forall i, base_covcount c' i = base_covcount (cover s) i) /\
    (forall i, In i slots <->
               0 <= i < total_pcs c' /\ pc_table c' i <> 0 /\
               base_covcount c' i <> curr_covcount c' i) /\
    StronglySorted Z.lt slots /\
    size cov' = Z.of_nat (List.length slots) /\
    borrowed_hits cov' s'
      = Some (map (fun i => fixup_truncate (pc_table c' i)) slots) /\
    (forall i, curr_covcount c' i = base_covcount c' i -> ~ In i slots).
Proof.
  destruct (cover_collect_run k cov s words Hrun) as [t' [Hres [_ Hhit]]].
  pose proof (snapshot_state_tables k words s) as [Htot [Hpc [Hcurr Hbase]]].
  destruct Hrun as (_ & _ & _ & Hlen).
  eexists. eexists. split; [exact Hres |].
  cbn zeta.
  change (cover (with_hits t' (snapshot_state k words s)))
    with (set_real_coverage_truncated t' (cover (snapshot_state k words s))).
  cbn [set_real_coverage_truncated total_pcs pc_table base_covcount curr_covcount].
  set (c0 := cover (snapshot_state k words s)) in *.
  rewrite Htot, Nat2Z.id.
  set (slots := hit_slots (pc_table c0) (base_covcount c0) (curr_covcount c0)
                          0 (List.length words)) in *.
  pose proof (hit_slots_length (pc_table c0) (base_covcount c0) (curr_covcount c0)
                               0 (List.length words)) as Hle.
  fold slots in Hle.
  repeat match goal with |- _ /\ _ => split end.
  - reflexivity.
  - exact Hpc.
  - intros i Hi. apply Hcurr. lia.
  - exact Hbase.
  - intros i. unfold slots. rewrite hit_slots_range. split.
    + intros (Hi & Hp & Hb). split; [lia | split; assumption].
    + intros (Hi & Hp & Hb). split; [lia | split; assumption].
  - apply hit_slots_sorted.
  - reflexivity.
  - apply borrowed_hits_collected; [lia | exact Hhit].
  - intros i Heq Hi. apply hit_slots_range in Hi. destruct Hi as (_ & _ & Hne).
    apply Hne. symmetry. exact Heq.
Qed.

Lemma cover_collect_diff_witness :
  exists (cov' : cover_t) (s' : state),
    cover_collect Sample.kern Sample.cov0 Sample.start = Done cov' s' /\
    size cov' = 1 /\
    borrowed_hits cov' s' = Some [fixup_truncate Sample.loc_B].
Proof.
  destruct (cover_collect_diff Sample.kern Sample.cov0 Sample.start
              [Sample.loc_A; Sample.loc_B])
    as [cov' [s' [Hres _]]].
  - repeat split; vm_compute; reflexivity.
  - exists cov', s'. split; [exact Hres |].
    assert (E : collected Sample.kern Sample.cov0 Sample.start
                = Some (1, [fixup_truncate Sample.loc_B]))
      by (vm_compute; reflexivity).
    unfold collected in E. rewrite Hres in E.
    destruct (borrowed_hits cov' s'); [| discriminate E].
    injection E as -> ->. split; reflexivity.
Defined.

(** C2.  The value stored for an included location [v] is
    [(v + 1) & 0xFFFFFFFF], a 32-bit value: [0xFFFFFFFF] is reported as [0]
    and [0x1_0000_0000] as [1], and the hit table of a collection is the
    list of these values over the included slots. *)
Theorem cover_collect_fixup (k : kernel) (cov : cover_t) (s : state) (words : list Z)
    (Hrun : collect_succeeds k words) :
  (forall v, fixup_truncate v = Z.land (v + 1) 0xFFFFFFFF /\
             0 <= fixup_truncate v < 2 ^ 32) /\
  fixup_truncate 0xFFFFFFFF = 0 /\
  fixup_truncate 0x100000000 = 1 /\
  exists (cov' : cover_t) (s' : state),
    cover_collect k cov s = Done cov' s' /\
    let c' := cover s' in
    let slots := hit_slots (pc_table c') (base_covcount c') (curr_covcount c')
                           0 (Z.to_nat (total_pcs c')) in
    borrowed_hits cov' s'
      = Some (map (fun i => Z.land (pc_table c' i + 1) 0xFFFFFFFF) slots).
Proof.
  split; [| split; [reflexivity | split; [reflexivity |]]].
  - intros v. rewrite fixup_truncate_reported. split; [reflexivity | apply reported_range].
  - destruct (cover_collect_run k cov s words Hrun) as [t' [Hres [_ Hhit]]].
    destruct Hrun as (_ & _ & _ & Hlen).
    eexists. eexists. split; [exact Hres |].
    cbn zeta.
    change (cover (with_hits t' (snapshot_state k words s)))
      with (set_real_coverage_truncated t' (cover (snapshot_state k words s))).
    cbn [set_real_coverage_truncated total_pcs pc_table base_covcount curr_covcount].
    set (c0 := cover (snapshot_state k words s)) in *.
    replace (total_pcs c0) with (Z.of_nat (List.length words)) by reflexivity.
    rewrite Nat2Z.id.
    pose proof (hit_slots_length (pc_table c0) (base_covcount c0) (curr_covcount c0)
                                 0 (List.length words)) as Hle.
    apply borrowed_hits_collected; [lia |].
    intros m Hm. rewrite (Hhit m Hm). apply fixup_truncate_reported.
Qed.

Lemma cover_collect_fixup_witness :
  exists (cov' : cover_t) (s' : state),
    cover_collect Sample.kern_boundary Sample.cov0 Sample.start = Done cov' s' /\
    borrowed_hits cov' s' = Some [0; 1].
Proof.
  destruct (cover_collect_fixup Sample.kern_boundary Sample.cov0 Sample.start
              [0xFFFFFFFF; 0x100000000])
    as (_ & _ & _ & cov' & s' & Hres & _).
  - repeat split; vm_compute; reflexivity.
  - exists cov', s'. split; [exact Hres |].
    assert (E : collected Sample.kern_boundary Sample.cov0 Sample.start
                = Some (2, [0; 1]))
      by (vm_compute; reflexivity).
    unfold collected in E. rewrite Hres in E.
    destruct (borrowed_hits cov' s'); [| discriminate E].
    injection E as _ ->. reflexivity.
Defined.

(** C10.  On every input [cover_collect] stays inside its tables.  When it
    returns, the hit with rank [m] among the included slots sits at index
    [m] of [real_coverage_truncated] and nothing at or above the result
    size was written, so the size is at most [total_pcs], itself at most
    [MAX_COVSZ] = 2^20, and the borrowed result lies within the table. *)
Theorem cover_collect_in_bounds (k : kernel) (cov : cover_t) (s : state) :
  MAX_COVSZ = 2 ^ 20 /\
  match cover_collect k cov s with
  | OutOfBounds _ => False
  | Fatal _ _ => True
  | Done cov' s' =>
      let c' := cover s' in
      let slots := hit_slots (pc_table c') (base_covcount c') (curr_covcount c')
                             0 (Z.to_nat (total_pcs c')) in
      0 <= size cov' <= total_pcs c' /\
      total_pcs c' <= MAX_COVSZ /\
      data cov' = RealCoverageTruncated /\
      size cov' = Z.of_nat (List.length slots) /\
      (forall m, (m < List.length slots)%nat ->
                 real_coverage_truncated c' (Z.of_nat m)
                 = fixup_truncate (pc_table c' (nth m slots 0))) /\
      (forall j, size cov' <= j ->
                 real_coverage_truncated c' j = real_coverage_truncated (cover s) j) /\
      exists hits, borrowed_hits cov' s' = Some hits /\
                   Z.of_nat (List.length hits) = size cov'
  end.
Proof.
  split; [reflexivity |].
  destruct (cover_collect_cases k cov s) as [[words Hrun] | [msg [s' Hfatal]]];
    [| rewrite Hfatal; exact I].
  destruct (cover_collect_run k cov s words Hrun) as [t' [Hres [Hframe Hhit]]].
  destruct Hrun as (_ & _ & _ & Hlen).
  rewrite Hres. cbn zeta.
  change (cover (with_hits t' (snapshot_state k words s)))
    with (set_real_coverage_truncated t' (cover (snapshot_state k words s))).
  cbn [set_real_coverage_truncated total_pcs pc_table base_covcount curr_covcount
       real_coverage_truncated size data].
  set (c0 := cover (snapshot_state k words s)) in *.
  replace (total_pcs c0) with (Z.of_nat (List.length words)) by reflexivity.
  rewrite Nat2Z.id.
  pose proof (hit_slots_length (pc_table c0) (base_covcount c0) (curr_covcount c0)
                               0 (List.length words)) as Hle.
  set (slots := hit_slots (pc_table c0) (base_covcount c0) (curr_covcount c0)
                          0 (List.length words)) in *.
  repeat match goal with |- _ /\ _ => split end;
    try lia; try reflexivity; try assumption.
  exists (map (fun i => fixup_truncate (pc_table c0 i)) slots). split.
  - apply borrowed_hits_collected; [lia | exact Hhit].
  - rewrite length_map. reflexivity.
Qed.

(** ** Snapshot reader: main result *)

(** C7.  Reading the location table into a buffer of [elems] slots dies if
    and only if the coverage file cannot be opened or the number of values
    read equals [elems]; otherwise it returns the number of entries read,
    which are then in the table.  A file of exactly [elems] values is
    therefore fatal. *)
Theorem snapshot_sancov_fatal_iff (k : kernel) (dst : dst_table) (elems : Z)
    (filename : string) (s : state) (Hcap : 0 <= elems <= MAX_COVSZ) :
  ((exists msg s', snapshot_sancov k dst elems filename s = Fatal msg s') <->
   (file_words k filename = None \/
    exists words, file_words k filename = Some words /\
                  fread_count words elems = elems)) /\
  (forall words,
      file_words k filename = Some words ->
      fread_count words elems <> elems ->
      fread_count words elems = Z.of_nat (List.length words) /\
      exists s', snapshot_sancov k dst elems filename s
                   = Done (Z.of_nat (List.length words)) s' /\
                 forall i, 0 <= i < Z.of_nat (List.length words) ->
                           dst_get dst (cover s') i = nth (Z.to_nat i) words 0) /\
  (forall words,
      file_words k filename = Some words ->
      Z.of_nat (List.length words) = elems ->
      snapshot_sancov k dst elems filename s
        = Fatal "pc table is too small. make it bigger."
                (set_cover (dst_set dst (table_blit (table_of_list words)
                                                    (dst_get dst (cover s)) elems)
                                        (cover s)) s)) /\
  snapshot_pctable k dst elems = snapshot_sancov k dst elems kCovPcsFileName.
Proof.
  unfold snapshot_pctable, snapshot_sancov.
  destruct (file_words k filename) as [words |] eqn:Hfile.
  - assert (Hfit : (fread_count words elems <=? MAX_COVSZ) = true)
      by (apply Z.leb_le; unfold fread_count; lia).
    unfold bind, blit_into. rewrite Hfit.
    split; [split |]; [| | split; [| split]].
    + destruct (fread_count words elems =? elems) eqn:Hn.
      * intros _. right. exists words. apply Z.eqb_eq in Hn. auto.
      * intros [msg [s' H]]. discriminate H.
    + intros [H | [w [Hw Hn]]]; [discriminate H |].
      injection Hw as <-. apply Z.eqb_eq in Hn. rewrite Hn.
      eexists. eexists. reflexivity.
    + intros w Hw Hn. injection Hw as <-.
      assert (Hlen : fread_count words elems = Z.of_nat (List.length words))
        by (unfold fread_count in *; lia).
      split; [exact Hlen |].
      apply Z.eqb_neq in Hn. rewrite Hn, Hlen.
      eexists. split; [reflexivity |].
      intros i Hi.
      destruct dst; cbn [cover set_cover dst_get dst_set base_covcount curr_covcount
                         pc_table set_base_covcount set_curr_covcount set_pc_table];
        unfold table_blit, table_of_list;
        replace (0 <=? i) with true by (symmetry; apply Z.leb_le; lia);
        replace (i <? Z.of_nat (List.length words)) with true
          by (symmetry; apply Z.ltb_lt; lia);
        replace (i <? 0) with false by (symmetry; apply Z.ltb_ge; lia);
        reflexivity.
    + intros w Hw Hn. injection Hw as <-.
      assert (Hlen : fread_count words elems = elems)
        by (unfold fread_count; lia).
      rewrite Hlen, Z.eqb_refl. reflexivity.
    + reflexivity.
  - split; [split |]; [| | split; [| split]].
    + intros _. left. reflexivity.
    + intros _. eexists. eexists. reflexivity.
    + intros w Hw. discriminate Hw.
    + intros w Hw. discriminate Hw.
    + reflexivity.
Qed.

Lemma snapshot_sancov_fatal_iff_witness :
  exists s',
    snapshot_sancov Sample.kern PcTable 2 kCovPcsFileName Sample.start
    = Fatal "pc table is too small. make it bigger." s'.
Proof.
  eexists.
  apply (snapshot_sancov_fatal_iff Sample.kern PcTable 2 kCovPcsFileName Sample.start).
  - vm_compute. split; discriminate.
  - reflexivity.
  - reflexivity.
Defined.

(** ** C strings *)

Lemma code_inj (c1 c2 : ascii) : code c1 = code c2 -> c1 = c2.
Proof.
  unfold code. intros H. apply N2Z.inj in H.
  rewrite <- (ascii_N_embedding c1), <- (ascii_N_embedding c2), H. reflexivity.
Qed.

Lemma strncmp_prefix (p : string) :
  no_nul p = true ->
  forall s, strncmp s p (String.length p) = 0 <-> exists rest, s = (p ++ rest)%string.
Proof.
  induction p as [| a p IH]; intros Hp s.
  - cbn [String.length strncmp String.append].
    split; [intros _; exists s; reflexivity | reflexivity].
  - cbn [no_nul] in Hp. apply andb_true_iff in Hp. destruct Hp as [Ha Hp].
    apply negb_true_iff, Z.eqb_neq in Ha.
    cbn [String.length strncmp String.append].
    destruct s as [| c r].
    + split; [lia | intros [rest H]; discriminate H].
    + destruct (code c =? code a) eqn:Hc.
      * apply Z.eqb_eq in Hc. pose proof (code_inj _ _ Hc) as ->.
        replace (code a =? 0) with false by (symmetry; apply Z.eqb_neq; exact Ha).
        cbn [negb andb]. rewrite (IH Hp r). split.
        -- intros [rest ->]. exists rest. reflexivity.
        -- intros [rest H]. injection H as ->. exists rest. reflexivity.
      * cbn [andb]. apply Z.eqb_neq in Hc. split; [lia |].
        intros [rest H]. injection H as -> _. contradiction Hc. reflexivity.
Qed.

Lemma strncmp_zx (nm : string) : strncmp nm "zx_" 3 = 0 <-> kernel_native nm.
Proof. apply (strncmp_prefix "zx_"). reflexivity. Qed.

Lemma strcmp_eq (s1 : string) :
  forall s2, no_nul s1 = true -> no_nul s2 = true ->
             (strcmp s1 s2 = 0 <-> s1 = s2).
Proof.
  induction s1 as [| c1 r1 IH]; intros [| c2 r2] H1 H2; cbn [strcmp].
  - split; reflexivity.
  - cbn [no_nul] in H2. apply andb_true_iff in H2. destruct H2 as [Hc _].
    apply negb_true_iff, Z.eqb_neq in Hc. split; [lia | discriminate].
  - cbn [no_nul] in H1. apply andb_true_iff in H1. destruct H1 as [Hc _].
    apply negb_true_iff, Z.eqb_neq in Hc. split; [lia | discriminate].
  - cbn [no_nul] in H1, H2.
    apply andb_true_iff in H1, H2. destruct H1 as [Hc1 H1], H2 as [Hc2 H2].
    rewrite Hc1, andb_true_r.
    destruct (code c1 =? code c2) eqn:Hc.
    + apply Z.eqb_eq, code_inj in Hc. subst c2. rewrite (IH r2 H1 H2).
      split; [intros ->; reflexivity | intros H; injection H as ->; reflexivity].
    + apply Z.eqb_neq in Hc. split; [lia |].
      intros H. injection H as -> _. contradiction Hc. reflexivity.
Qed.

Lemma allow_listed_false (nm : string) (raw : Z) :
  no_nul nm = true -> ~ In nm allow_list -> raw <> 0 ->
  (raw =? ZX_OK)
  || (strcmp nm "zx_debuglog_read" =? 0)
  || (strcmp nm "zx_clock_get" =? 0)
  || (strcmp nm "zx_clock_get_monotonic" =? 0)
  || (strcmp nm "zx_deadline_after" =? 0)
  || (strcmp nm "zx_ticks_get" =? 0) = false.
Proof.
  intros Hnm Hout Hraw.
  assert (H : forall lit, In lit allow_list -> (strcmp nm lit =? 0) = false).
  { intros lit Hin. apply Z.eqb_neq. intros E.
    apply (strcmp_eq nm lit Hnm) in E.
    - subst lit. exact (Hout Hin).
    - cbn [allow_list In] in Hin.
      repeat (destruct Hin as [<- | Hin]; [reflexivity |]). contradiction. }
  apply Z.eqb_neq in Hraw. unfold ZX_OK. rewrite Hraw.
  rewrite !H by (cbn [allow_list In]; tauto). reflexivity.
Qed.

Lemma allow_listed_true (nm : string) (raw : Z) :
  In nm allow_list ->
  kernel_native nm /\
  (raw =? ZX_OK)
  || (strcmp nm "zx_debuglog_read" =? 0)
  || (strcmp nm "zx_clock_get" =? 0)
  || (strcmp nm "zx_clock_get_monotonic" =? 0)
  || (strcmp nm "zx_deadline_after" =? 0)
  || (strcmp nm "zx_ticks_get" =? 0) = true.
Proof.
  intros Hin. cbn [allow_list In] in Hin.
  repeat (destruct Hin as [<- | Hin];
          [split; [eexists; reflexivity
                  | destruct (raw =? ZX_OK); vm_compute; reflexivity] |]).
  contradiction.
Qed.

(** ** Return-code normaliser: main results *)

(** C3.  For a kernel-native call whose raw result is [ZX_OK], and for a
    call on the allow-list whatever its raw result, [execute_syscall]
    returns 0 and leaves the state as the call left it. *)
Theorem execute_syscall_success (c : call_t) (a : nat -> Z) (s s' : state) (raw : Z)
    (Hcall : raw_call c a s = Done raw s')
    (Hok : (kernel_native (name c) /\ raw = ZX_OK) \/ In (name c) allow_list) :
  execute_syscall c a s = Done 0 s'.
Proof.
  unfold execute_syscall, bind. unfold raw_call in Hcall. rewrite Hcall.
  destruct Hok as [[Hzx ->] | Hin].
  - apply strncmp_zx in Hzx. rewrite Hzx, !Z.eqb_refl. reflexivity.
  - apply (allow_listed_true _ raw) in Hin. destruct Hin as [Hzx Hin].
    apply strncmp_zx in Hzx. rewrite Hzx, Z.eqb_refl, Hin. reflexivity.
Qed.

Lemma execute_syscall_success_witness :
  execute_syscall (Sample.returning "zx_ticks_get" 123456789) Sample.args Sample.start
  = Done 0 Sample.start /\
  execute_syscall (Sample.returning "zx_handle_close" 0) Sample.args Sample.start
  = Done 0 Sample.start.
Proof.
  split.
  - apply (execute_syscall_success _ _ _ _ 123456789); [reflexivity |].
    right. vm_compute. tauto.
  - apply (execute_syscall_success _ _ _ _ 0); [reflexivity |].
    left. split; [exists "handle_close"%string; reflexivity | reflexivity].
Defined.

(** C4.  For a kernel-native call off the allow-list whose raw result is
    non-zero, [execute_syscall] returns -1 and its only effect on the state
    the call left is to set [errno] to [(-raw) & 0x7F]; a raw result of -5
    gives -1 and the code [5 & 0x7F]. *)
Theorem execute_syscall_failure (c : call_t) (a : nat -> Z) (s s' : state) (raw : Z)
    (Hcall : raw_call c a s = Done raw s')
    (Hzx : kernel_native (name c))
    (Hstr : no_nul (name c) = true)
    (Hout : ~ In (name c) allow_list)
    (Hraw : raw <> 0) :
  exists s2 : state,
    execute_syscall c a s = Done (-1) s2 /\
    errno s2 = Z.land (- raw) 0x7F /\
    (raw = -5 -> errno s2 = Z.land 5 0x7F) /\
    cover s2 = cover s' /\
    vmo s2 = vmo s' /\
    last_scheduled s2 = last_scheduled s' /\
    flag_coverage s2 = flag_coverage s' /\
    flag_collect_cover s2 = flag_collect_cover s' /\
    pipe s2 = pipe s'.
Proof.
  exists (set_errno (Z.land (intptr (- raw)) 0x7f) s').
  split; [| split; [| split]].
  - unfold execute_syscall, bind. unfold raw_call in Hcall. rewrite Hcall.
    apply strncmp_zx in Hzx.
    rewrite Hzx, Z.eqb_refl, (allow_listed_false (name c) raw Hstr Hout Hraw).
    reflexivity.
  - cbn [errno set_errno]. apply land_intptr_7f.
  - intros ->. cbn [errno set_errno]. apply land_intptr_7f.
  - cbn [set_errno cover vmo last_scheduled flag_coverage flag_collect_cover pipe].
    repeat split; reflexivity.
Qed.

Lemma execute_syscall_failure_witness :
  exists s2 : state,
    execute_syscall (Sample.returning "zx_handle_close" (-5)) Sample.args Sample.start
    = Done (-1) s2 /\
    errno s2 = 5 /\
    pipe s2 = pipe Sample.start.
Proof.
  destruct (execute_syscall_failure (Sample.returning "zx_handle_close" (-5))
                                    Sample.args Sample.start Sample.start (-5))
    as (s2 & Hrun & Herrno & _ & _ & _ & _ & _ & _ & Hpipe).
  - reflexivity.
  - exists "handle_close"%string. reflexivity.
  - reflexivity.
  - vm_compute. intros H.
    repeat (destruct H as [H | H]; [discriminate H |]). exact H.
  - discriminate.
  - exists s2. split; [exact Hrun | split; [exact Herrno | exact Hpipe]].
Defined.

(** C5.  For a call whose name lacks the kernel-native prefix,
    [execute_syscall] returns the full-width -1 when the raw result is the
    32-bit pattern [0xFFFFFFFF] and the raw result itself otherwise, with no
    effect on the state the call left. *)
Theorem execute_syscall_conventional (c : call_t) (a : nat -> Z) (s s' : state) (raw : Z)
    (Hcall : raw_call c a s = Done raw s')
    (Hconv : ~ kernel_native (name c)) :
  (raw = 0xFFFFFFFF -> execute_syscall c a s = Done (-1) s') /\
  (raw <> 0xFFFFFFFF -> execute_syscall c a s = Done raw s') /\
  (raw = 1 -> execute_syscall c a s = Done 1 s').
Proof.
  assert (Hz : (strncmp (name c) "zx_" 3 =? 0) = false).
  { apply Z.eqb_neq. intros E. apply Hconv, strncmp_zx, E. }
  unfold execute_syscall, bind. unfold raw_call in Hcall. rewrite Hcall, Hz.
  split; [| split].
  - intros ->. reflexivity.
  - intros Hne. apply Z.eqb_neq in Hne. rewrite Hne. reflexivity.
  - intros ->. reflexivity.
Qed.

Lemma execute_syscall_conventional_witness :
  execute_syscall (Sample.returning "close" 0xFFFFFFFF) Sample.args Sample.start
  = Done (-1) Sample.start /\
  execute_syscall (Sample.returning "close" 1) Sample.args Sample.start
  = Done 1 Sample.start.
Proof.
  assert (Hconv : ~ kernel_native "close").
  { intros [rest H]. discriminate H. }
  split.
  - apply (execute_syscall_conventional (Sample.returning "close" 0xFFFFFFFF)
             Sample.args Sample.start Sample.start 0xFFFFFFFF);
      [reflexivity | exact Hconv | reflexivity].
  - apply (execute_syscall_conventional (Sample.returning "close" 1)
             Sample.args Sample.start Sample.start 1);
      [reflexivity | exact Hconv | reflexivity].
Defined.

(** ** Result reporter *)

Lemma has_flag_lor (a b f : Z) :
  has_flag (Z.lor a b) f = has_flag a f || has_flag b f.
Proof.
  unfold has_flag. rewrite Z.land_lor_distr_l.
  destruct (Z.land a f =? 0) eqn:Ha, (Z.land b f =? 0) eqn:Hb; cbn [negb orb];
    rewrite ?Z.eqb_eq, ?Z.eqb_neq in *.
  - apply negb_false_iff, Z.eqb_eq, Z.lor_eq_0_iff. tauto.
  - apply negb_true_iff, Z.eqb_neq. rewrite Z.lor_eq_0_iff. tauto.
  - apply negb_true_iff, Z.eqb_neq. rewrite Z.lor_eq_0_iff. tauto.
  - apply negb_true_iff, Z.eqb_neq. rewrite Z.lor_eq_0_iff. tauto.
Qed.

Lemma has_flag_self (f : Z) : f <> 0 -> has_flag f f = true.
Proof.
  intros H. unfold has_flag. rewrite Z.land_diag.
  apply negb_true_iff, Z.eqb_neq, H.
Qed.

Lemma has_flag_disjoint (a f : Z) : Z.land a f = 0 -> has_flag a f = false.
Proof. intros H. unfold has_flag. rewrite H. reflexivity. Qed.

Lemma has_flag_0 (f : Z) : has_flag 0 f = false.
Proof. reflexivity. Qed.

Section ReporterFacts.

Variables call_flag_executed call_flag_finished : Z.
Variables call_flag_blocked call_flag_fault_injected : Z.
Variable kOutMagic : Z.
Variable sizeof_call_reply : Z.

Local Abbreviation reply_of :=
  (build_reply call_flag_executed call_flag_finished
               call_flag_blocked call_flag_fault_injected kOutMagic).
Local Abbreviation report :=
  (write_call_output call_flag_executed call_flag_finished
                     call_flag_blocked call_flag_fault_injected
                     kOutMagic sizeof_call_reply).

(** Whatever happens afterwards, a report first hands the header to the
    pipe, and hands over nothing but hit tables after it. *)
Lemma write_call_output_pipe (k : kernel) (th : thread_t) (finished : bool)
      (s : state) :
  exists (r : Z) (tables : list write_event),
    pipe (final_state (report k th finished s))
    = pipe s ++ {| ev_buf := BufReply (reply_of th finished s);
                   ev_count := sizeof_call_reply; ev_ret := r |} :: tables /\
    Forall is_table tables.
Proof.
  unfold write_call_output, bind, get, write, read_hits, fail, ret.
  cbn [pipe set_pipe cover].
  change (borrowed_hits (cov th) (set_pipe ?p s)) with (borrowed_hits (cov th) s).
  repeat match goal with
         | |- context [if ?b then _ else _] => destruct b
         | |- context [match borrowed_hits ?c ?st with _ => _ end] =>
             destruct (borrowed_hits c st)
         end;
    cbn [final_state pipe set_pipe]; rewrite <- ?app_assoc; cbn [app];
    eexists; eexists; (split; [reflexivity |]);
    repeat constructor; eexists; reflexivity.
Qed.

Hypothesis executed_nonzero : call_flag_executed <> 0.
Hypothesis finished_nonzero : call_flag_finished <> 0.
Hypothesis executed_finished : Z.land call_flag_executed call_flag_finished = 0.
Hypothesis blocked_finished : Z.land call_flag_blocked call_flag_finished = 0.
Hypothesis executed_fault :
  Z.land call_flag_executed call_flag_fault_injected = 0.
Hypothesis blocked_fault :
  Z.land call_flag_blocked call_flag_fault_injected = 0.

Lemma unfinished_flags (th : thread_t) (s : state) (f : Z) :
  Z.land call_flag_executed f = 0 -> Z.land call_flag_blocked f = 0 ->
  has_flag (reply_flags (reply_of th false s)) f = false.
Proof.
  intros He Hb. cbn [build_reply reply_flags]. rewrite has_flag_lor.
  rewrite (has_flag_disjoint _ _ He).
  destruct (negb (th_addr th =? last_scheduled s));
    [apply (has_flag_disjoint _ _ Hb) | apply has_flag_0].
Qed.

(** C6.  The first thing a report hands to the pipe is its header.  For an
    unfinished call the header carries error code 999 and has the
    finished flag clear; for a finished call whose result is not -1 it
    carries error code 0 and has the finished flag set; and a header with
    the fault-injected flag set belongs to a finished call. *)
Theorem write_call_output_framing (k : kernel) (th : thread_t) (s : state) :
  (forall finished,
      exists r tables,
        pipe (final_state (report k th finished s))
        = pipe s ++ {| ev_buf := BufReply (reply_of th finished s);
                       ev_count := sizeof_call_reply; ev_ret := r |} :: tables) /\
  reply_reserrno (reply_of th false s) = 999 /\
  has_flag (reply_flags (reply_of th false s)) call_flag_finished = false /\
  (res th <> -1 ->
   reply_reserrno (reply_of th true s) = 0 /\
   has_flag (reply_flags (reply_of th true s)) call_flag_finished = true) /\
  (forall finished,
      has_flag (reply_flags (reply_of th finished s)) call_flag_fault_injected = true ->
      finished = true).
Proof.
  repeat match goal with |- _ /\ _ => split end.
  - intros finished.
    destruct (write_call_output_pipe k th finished s) as [r [tables [H _]]].
    exists r, tables. exact H.
  - reflexivity.
  - apply unfinished_flags; assumption.
  - intros Hres. split.
    + cbn [build_reply reply_reserrno].
      apply Z.eqb_neq in Hres. rewrite Hres. reflexivity.
    + cbn [build_reply reply_flags]. rewrite !has_flag_lor.
      rewrite (has_flag_self _ finished_nonzero).
      rewrite orb_true_r. reflexivity.
  - intros [|] H; [reflexivity |].
    rewrite unfinished_flags in H by assumption. discriminate H.
Qed.

(** C9.  Every header a report hands to the pipe has a comparison-table
    size of zero, a done flag of 0, a status of 0 and the executed flag
    set, whatever the call record, the [finished] argument and the
    coverage flags; and each report hands over such a header. *)
Theorem write_call_output_constant_fields (k : kernel) (th : thread_t)
    (finished : bool) (s : state) :
  exists new : list write_event,
    pipe (final_state (report k th finished s)) = pipe s ++ new /\
    (exists e r, In e new /\ ev_buf e = BufReply r) /\
    forall e r, In e new -> ev_buf e = BufReply r ->
                comps_size r = 0 /\ header_done r = 0 /\ header_status r = 0 /\
                has_flag (reply_flags r) call_flag_executed = true.
Proof.
  destruct (write_call_output_pipe k th finished s) as [w [tables [H Htab]]].
  eexists. split; [exact H | split].
  - eexists. eexists. split; [left; reflexivity | reflexivity].
  - intros e r [<- | Hin] Hbuf.
    + cbn [ev_buf] in Hbuf. injection Hbuf as <-.
      repeat match goal with |- _ /\ _ => split end; try reflexivity.
      cbn [build_reply reply_flags].
      destruct finished; rewrite !has_flag_lor, (has_flag_self _ executed_nonzero);
        reflexivity.
    + rewrite Forall_forall in Htab. destruct (Htab e Hin) as [words Hw].
      rewrite Hw in Hbuf. discriminate Hbuf.
Qed.

(** C8.  With a pipe that takes every write and a call record whose
    coverage result comes from the latest collection: when coverage
    reporting is on, the header's signal size is the hit count of that
    collection and the hit table is written once after the header; when
    full coverage is on as well, the cover size is the same count and the
    same table is written a second time; when coverage reporting is off,
    both sizes are 0 and only the header is written. *)
Theorem write_call_output_coverage (k0 k : kernel) (cov0 : cover_t)
    (s0 s1 s : state) (th : thread_t) (finished : bool)
    (Hcollect : cover_collect k0 cov0 s0 = Done (cov th) s1)
    (Hcover : cover s = cover s1)
    (Hpipe : pipe_accepts k) :
  exists (hits : list Z) (s' : state),
    borrowed_hits (cov th) s1 = Some hits /\
    Z.of_nat (List.length hits) = size (cov th) /\
    report k th finished s = Done tt s' /\
    exists hdr : call_reply,
      pipe s'
      = pipe s ++ sent (BufReply hdr) sizeof_call_reply
               :: (if flag_coverage s
                   then sent (BufTable hits) (4 * size (cov th))
                        :: (if flag_collect_cover s
                            then [sent (BufTable hits) (4 * size (cov th))]
                            else [])
                   else []) /\
      hdr = reply_of th finished s /\
      signal_size hdr = (if flag_coverage s then size (cov th) else 0) /\
      cover_size hdr = (if flag_coverage s && flag_collect_cover s
                        then size (cov th) else 0).
Proof.
  destruct (cover_collect_done _ _ _ _ _ Hcollect) as [Hsize [hits [Hhits Hlen]]].
  assert (Hhere : forall st, cover st = cover s ->
                             borrowed_hits (cov th) st = Some hits).
  { intros st Hst. rewrite <- Hhits. unfold borrowed_hits.
    rewrite Hst, Hcover. reflexivity. }
  assert (Hcount : u64 (size (cov th) * sizeof_uint32_t) = 4 * size (cov th)).
  { unfold u64, sizeof_uint32_t, MAX_COVSZ in *. change (Z.shiftl 1 20) with 1048576 in Hsize.
    rewrite Z.mod_small; lia. }
  assert (Hrun : exists s',
             report k th finished s = Done tt s' /\
             pipe s'
             = pipe s ++ sent (BufReply (reply_of th finished s)) sizeof_call_reply
                      :: (if flag_coverage s
                          then sent (BufTable hits) (4 * size (cov th))
                               :: (if flag_collect_cover s
                                   then [sent (BufTable hits) (4 * size (cov th))]
                                   else [])
                          else [])).
  { unfold write_call_output, bind, get, write, read_hits, fail, ret.
    rewrite Hpipe, Z.eqb_refl. cbn [negb].
    destruct (flag_coverage s); [| eexists; split; reflexivity].
    rewrite Hhere by reflexivity. rewrite Hpipe, Hcount.
    replace (sizeof_uint32_t * size (cov th)) with (4 * size (cov th)) by reflexivity.
    rewrite Z.eqb_refl. cbn [negb].
    destruct (flag_collect_cover s); cbn [negb].
    - rewrite Hhere by reflexivity. rewrite Hpipe, Z.eqb_refl. cbn [negb].
      eexists. split; [reflexivity |].
      cbn [pipe set_pipe]. unfold sent. rewrite <- !app_assoc. reflexivity.
    - eexists. split; [reflexivity |].
      cbn [pipe set_pipe]. unfold sent. rewrite <- !app_assoc. reflexivity. }
  destruct Hrun as (s' & Hrun & Hsent).
  exists hits, s'.
  split; [exact Hhits | split; [exact Hlen | split; [exact Hrun |]]].
  exists (reply_of th finished s).
  split; [exact Hsent | split; [reflexivity | split]].
  - reflexivity.
  - cbn [build_reply cover_size].
    destruct (flag_coverage s), (flag_collect_cover s); reflexivity.
Qed.

End ReporterFacts.

Lemma write_call_output_framing_witness :
  reply_reserrno (Sample.reply_of Sample.th_ok false Sample.start) = 999 /\
  has_flag (reply_flags (Sample.reply_of Sample.th_ok false Sample.start))
           Sample.flag_finished = false /\
  reply_reserrno (Sample.reply_of Sample.th_ok true Sample.start) = 0 /\
  has_flag (reply_flags (Sample.reply_of Sample.th_ok true Sample.start))
           Sample.flag_finished = true.
Proof.
  destruct (write_call_output_framing
              Sample.flag_executed Sample.flag_finished Sample.flag_blocked
              Sample.flag_fault_injected Sample.magic Sample.reply_bytes)
    with (k := Sample.kern) (th := Sample.th_ok) (s := Sample.start)
    as (_ & H0 & H1 & H2 & _);
    try reflexivity; try discriminate.
  destruct H2 as [H2 H3]; [discriminate |].
  exact (conj H0 (conj H1 (conj H2 H3))).
Defined.

Lemma write_call_output_constant_fields_witness :
  exists new : list write_event,
    pipe (final_state (Sample.report Sample.kern Sample.th_failed true Sample.start))
    = pipe Sample.start ++ new /\
    (exists e r, In e new /\ ev_buf e = BufReply r) /\
    forall e r, In e new -> ev_buf e = BufReply r ->
                comps_size r = 0 /\ header_done r = 0 /\ header_status r = 0 /\
                has_flag (reply_flags r) Sample.flag_executed = true.
Proof.
  apply (write_call_output_constant_fields
           Sample.flag_executed Sample.flag_finished Sample.flag_blocked
           Sample.flag_fault_injected Sample.magic Sample.reply_bytes).
  discriminate.
Defined.

Lemma sample_collect :
  cover_collect Sample.kern Sample.cov0 Sample.start
  = Done Sample.collected_cov Sample.after_collect.
Proof.
  assert (Hrun : collect_succeeds Sample.kern [Sample.loc_A; Sample.loc_B])
    by (repeat split; vm_compute; reflexivity).
  destruct (cover_collect_run Sample.kern Sample.cov0 Sample.start _ Hrun)
    as [t' [Hres _]].
  unfold Sample.collected_cov, Sample.after_collect. rewrite Hres. reflexivity.
Qed.

Lemma write_call_output_coverage_witness :
  exists (hdr : call_reply) (s' : state),
    Sample.report Sample.kern Sample.th_collected true Sample.after_collect
    = Done tt s' /\
    pipe s' = [ sent (BufReply hdr) Sample.reply_bytes;
                sent (BufTable [fixup_truncate Sample.loc_B]) 4;
                sent (BufTable [fixup_truncate Sample.loc_B]) 4 ] /\
    signal_size hdr = 1 /\ cover_size hdr = 1.
Proof.
  destruct (write_call_output_coverage
              Sample.flag_executed Sample.flag_finished Sample.flag_blocked
              Sample.flag_fault_injected Sample.magic Sample.reply_bytes
              Sample.kern Sample.kern Sample.cov0 Sample.start
              Sample.after_collect Sample.after_collect Sample.th_collected true
              sample_collect eq_refl)
    as (hits & s' & Hhits & _ & Hrep & hdr & Hsent & _ & Hsig & Hcov).
  - intros n count. reflexivity.
  - assert (E : borrowed_hits (cov Sample.th_collected) Sample.after_collect
                = Some [fixup_truncate Sample.loc_B]) by (vm_compute; reflexivity).
    rewrite E in Hhits. injection Hhits as <-.
    assert (Ef : flag_coverage Sample.after_collect = true) by (vm_compute; reflexivity).
    assert (Ec : flag_collect_cover Sample.after_collect = true)
      by (vm_compute; reflexivity).
    assert (Es : size (cov Sample.th_collected) = 1) by (vm_compute; reflexivity).
    assert (Ep : pipe Sample.after_collect = []) by (vm_compute; reflexivity).
    rewrite Ef, Ec, Es, Ep in Hsent. rewrite Ef, Es in Hsig. rewrite Ef, Ec, Es in Hcov.
    exists hdr, s'.
    split; [exact Hrep | split; [exact Hsent | split; [exact Hsig | exact Hcov]]].
Defined.

(** ** The life cycle: enable, reset, collect *)

Lemma hit_slots_ext (pcs base curr pcs' base' curr' : table) (first : Z) (n : nat) :
  (forall i, first <= i < first + Z.of_nat n ->
             pcs i = pcs' i /\ base i = base' i /\ curr i = curr' i) ->
  hit_slots pcs base curr first n = hit_slots pcs' base' curr' first n.
Proof.
  intros H. unfold hit_slots. apply filter_ext_in.
  intros i Hi. apply in_map_iff in Hi. destruct Hi as [j [<- Hj]].
  apply in_seq in Hj. unfold slot_hit.
  destruct (H (first + Z.of_nat j)) as (-> & -> & ->); [lia | reflexivity].
Qed.

Lemma snapshot_covcount_run (k : kernel) (dst : dst_table) (elems : Z) (s : state) :
  elems <= MAX_COVSZ ->
  snapshot_covcount k dst elems s =
  if negb (coverage_ctl_status k 2 =? ZX_OK)
  then Fatal "failed to fetch coverage. err: %d\n" s
  else if negb (vmo_read_status k =? ZX_OK)
       then Fatal "failed to copy coverage. err: %d\n" (set_vmo (live_covcount k) s)
       else Done tt (set_cover
                       (dst_set dst (table_blit (live_covcount k)
                                                (dst_get dst (cover s)) elems)
                                    (cover s))
                       (set_vmo (live_covcount k) s)).
Proof.
  intros Hcap. unfold snapshot_covcount.
  destruct (negb (coverage_ctl_status k 2 =? ZX_OK)); [reflexivity |].
  unfold bind, modify, get, blit_into, fail.
  destruct (negb (vmo_read_status k =? ZX_OK)); [reflexivity |].
  replace (elems <=? MAX_COVSZ) with true by (symmetry; apply Z.leb_le; exact Hcap).
  reflexivity.
Qed.

Lemma table_blit_inside (src dst : table) (n i : Z) :
  0 <= i < n -> table_blit src dst n i = src i.
Proof.
  intros H. unfold table_blit.
  replace (0 <=? i) with true by (symmetry; apply Z.leb_le; lia).
  replace (i <? n) with true by (symmetry; apply Z.ltb_lt; lia).
  reflexivity.
Qed.

Lemma table_blit_outside (src dst : table) (n i : Z) :
  i < 0 \/ n <= i -> table_blit src dst n i = dst i.
Proof.
  intros H. unfold table_blit.
  destruct (0 <=? i) eqn:H0; [| reflexivity].
  apply Z.leb_le in H0.
  replace (i <? n) with false by (symmetry; apply Z.ltb_ge; lia).
  reflexivity.
Qed.

Lemma table_of_list_nth (l : list Z) (i : Z) :
  0 <= i -> table_of_list l i = nth (Z.to_nat i) l 0.
Proof.
  intros H. unfold table_of_list.
  replace (i <? 0) with false by (symmetry; apply Z.ltb_ge; lia).
  reflexivity.
Qed.

Lemma nth_map_in (f : Z -> Z) (l : list Z) (m : nat) :
  (m < List.length l)%nat -> nth m (map f l) 0 = f (nth m l 0).
Proof.
  intros H. rewrite (nth_indep (map f l) 0 (f 0)) by (rewrite length_map; exact H).
  apply map_nth.
Qed.

(** What a collection returns, in terms of what goes in. *)
Lemma cover_collect_observed (k : kernel) (cov : cover_t) (s : state) (words : list Z) :
  collect_succeeds k words ->
  let hits := observed_hits words (base_covcount (cover s)) (live_covcount k) in
  let cov' := {| size := Z.of_nat (List.length hits); data := RealCoverageTruncated |} in
  exists t' : table,
    cover_collect k cov s = Done cov' (with_hits t' (snapshot_state k words s)) /\
    borrowed_hits cov' (with_hits t' (snapshot_state k words s)) = Some hits /\
    (forall m, (m < List.length hits)%nat -> t' (Z.of_nat m) = nth m hits 0) /\
    (forall j, Z.of_nat (List.length hits) <= j ->
               t' j = real_coverage_truncated (cover s) j).
Proof.
  intros Hrun hits cov'.
  destruct (cover_collect_run k cov s words Hrun) as [t' [Hres [Hframe Hhit]]].
  pose proof (snapshot_state_tables k words s) as [_ [Hpc [Hcurr Hbase]]].
  destruct Hrun as (_ & _ & _ & Hlen).
  set (c0 := cover (snapshot_state k words s)) in *.
  assert (Hslots : hit_slots (pc_table c0) (base_covcount c0) (curr_covcount c0)
                             0 (List.length words)
                   = observed_slots words (base_covcount (cover s)) (live_covcount k)).
  { unfold observed_slots. apply hit_slots_ext. intros i Hi.
    rewrite Hpc, Hcurr, Hbase, table_of_list_nth by lia. auto. }
  rewrite Hslots in Hres, Hframe, Hhit.
  pose proof (hit_slots_length (table_of_list words) (base_covcount (cover s))
                               (live_covcount k) 0 (List.length words)) as Hle.
  fold (observed_slots words (base_covcount (cover s)) (live_covcount k)) in Hle.
  assert (Hval : forall m,
             (m < List.length (observed_slots words (base_covcount (cover s))
                                              (live_covcount k)))%nat ->
             t' (Z.of_nat m)
             = (fun i => fixup_truncate (nth (Z.to_nat i) words 0))
                 (nth m (observed_slots words (base_covcount (cover s))
                                        (live_covcount k)) 0)).
  { intros m Hm. rewrite (Hhit m Hm). cbv beta. f_equal.
    apply Hpc.
    assert (Hin : In (nth m (observed_slots words (base_covcount (cover s))
                                            (live_covcount k)) 0)
                     (observed_slots words (base_covcount (cover s)) (live_covcount k)))
      by (apply nth_In; exact Hm).
    apply hit_slots_range in Hin. lia. }
  exists t'. subst cov' hits. unfold observed_hits. rewrite length_map.
  split; [exact Hres | split; [| split]].
  - apply borrowed_hits_collected; [lia | exact Hval].
  - intros m Hm. rewrite (Hval m Hm), nth_map_in by exact Hm. reflexivity.
  - exact Hframe.
Qed.

(** X1.  Enabling coverage is all or nothing: it dies when the kernel
    refuses coverage for the thread or refuses the counter region, and then
    the state is as before; otherwise it returns and the only change is
    that [covcount_vmo] is the new handle.  A refused coverage request is
    reported before the region is asked for. *)
Theorem cover_enable_all_or_nothing (k : kernel) (cov : cover_t)
    (collect_comps extra : bool) (s : state) :
  (coverage_ctl_status k 1 <> ZX_OK ->
   cover_enable k cov collect_comps extra s
   = Fatal "failed to enable coverage. err: %d\n" s) /\
  (coverage_ctl_status k 1 = ZX_OK -> fst (vmo_create_result k) <> ZX_OK ->
   cover_enable k cov collect_comps extra s
   = Fatal "failed to create covcount vmo. err: %d\n" s) /\
  (coverage_ctl_status k 1 = ZX_OK -> fst (vmo_create_result k) = ZX_OK ->
   exists s',
     cover_enable k cov collect_comps extra s = Done tt s' /\
     covcount_vmo (cover s') = snd (vmo_create_result k) /\
     base_covcount (cover s') = base_covcount (cover s) /\
     curr_covcount (cover s') = curr_covcount (cover s) /\
     pc_table (cover s') = pc_table (cover s) /\
     real_coverage_truncated (cover s') = real_coverage_truncated (cover s) /\
     total_pcs (cover s') = total_pcs (cover s) /\
     vmo s' = vmo s /\ same_globals s s').
Proof.
  unfold cover_enable. split; [| split].
  - intros H. apply Z.eqb_neq in H. rewrite H. reflexivity.
  - intros H1 H2. apply Z.eqb_eq in H1. apply Z.eqb_neq in H2.
    rewrite H1, H2. reflexivity.
  - intros H1 H2. apply Z.eqb_eq in H1, H2. rewrite H1, H2.
    eexists. split; [reflexivity |].
    unfold same_globals. cbn. repeat split; reflexivity.
Qed.

Lemma cover_enable_all_or_nothing_witness :
  cover_enable Scenario.kern_no_coverage Sample.cov0 false false Sample.start
  = Fatal "failed to enable coverage. err: %d\n" Sample.start /\
  cover_enable Scenario.kern_no_vmo Sample.cov0 false false Sample.start
  = Fatal "failed to create covcount vmo. err: %d\n" Sample.start.
Proof.
  split.
  - apply (cover_enable_all_or_nothing Scenario.kern_no_coverage). discriminate.
  - apply (cover_enable_all_or_nothing Scenario.kern_no_vmo);
      [reflexivity | discriminate].
Defined.

(** X2.  A counter snapshot of [elems] slots, [elems] within the capacity:
    when the fetch and the copy succeed, the first [elems] entries of the
    destination are the live counters, its other entries and the other
    tables are as before; when the fetch or the copy fails the run dies
    with every table as before, and a failed fetch leaves the counter
    region as before too. *)
Theorem snapshot_covcount_effect (k : kernel) (dst : dst_table) (elems : Z) (s : state)
    (Hcap : 0 <= elems <= MAX_COVSZ) :
  (fetch_succeeds k ->
   exists s',
     snapshot_covcount k dst elems s = Done tt s' /\
     (forall i, 0 <= i < elems -> dst_get dst (cover s') i = live_covcount k i) /\
     (forall i, elems <= i -> dst_get dst (cover s') i = dst_get dst (cover s) i) /\
     (forall d, d <> dst -> dst_get d (cover s') = dst_get d (cover s)) /\
     real_coverage_truncated (cover s') = real_coverage_truncated (cover s) /\
     total_pcs (cover s') = total_pcs (cover s) /\
     vmo s' = live_covcount k /\ same_globals s s') /\
  (~ fetch_succeeds k ->
   exists msg s',
     snapshot_covcount k dst elems s = Fatal msg s' /\
     cover s' = cover s /\ same_globals s s' /\
     (coverage_ctl_status k 2 <> ZX_OK -> s' = s)).
Proof.
  rewrite snapshot_covcount_run by lia. unfold fetch_succeeds. split.
  - intros [Hctl Hrd]. rewrite Hctl, Hrd. cbn [ZX_OK Z.eqb negb].
    eexists. split; [reflexivity |].
    cbn [cover set_cover set_vmo vmo].
    split; [| split; [| split; [| split; [| split; [| split]]]]].
    + intros i Hi. destruct dst; cbn; apply table_blit_inside; exact Hi.
    + intros i Hi. destruct dst; cbn; apply table_blit_outside; lia.
    + intros d Hd. destruct d, dst; try reflexivity; contradiction Hd; reflexivity.
    + destruct dst; reflexivity.
    + destruct dst; reflexivity.
    + reflexivity.
    + unfold same_globals. cbn. repeat split; reflexivity.
  - intros Hno.
    destruct (coverage_ctl_status k 2 =? ZX_OK) eqn:Hctl; cbn [negb].
    + destruct (vmo_read_status k =? ZX_OK) eqn:Hrd; cbn [negb].
      * apply Z.eqb_eq in Hctl, Hrd. contradiction Hno. split; assumption.
      * eexists. eexists. split; [reflexivity |].
        split; [reflexivity | split].
        -- unfold same_globals. cbn. repeat split; reflexivity.
        -- intros H. apply Z.eqb_eq in Hctl. contradiction.
    + eexists. eexists. split; [reflexivity |].
      split; [reflexivity | split].
      * unfold same_globals. repeat split; reflexivity.
      * reflexivity.
Qed.

Lemma snapshot_covcount_effect_witness :
  exists s',
    snapshot_covcount Sample.kern CurrCovcount 1 Sample.start = Done tt s' /\
    curr_covcount (cover s') 0 = 0 /\
    curr_covcount (cover s') 1 = 0 /\
    base_covcount (cover s') 1 = 5.
Proof.
  destruct (snapshot_covcount_effect Sample.kern CurrCovcount 1 Sample.start)
    as [Hok _].
  - vm_compute. split; discriminate.
  - destruct Hok as (s' & Hrun & Hin & Hout & Hother & _).
    + split; reflexivity.
    + exists s'. split; [exact Hrun |].
      split; [| split].
      * change (dst_get CurrCovcount (cover s') 0 = 0).
        rewrite (Hin 0) by lia. reflexivity.
      * change (dst_get CurrCovcount (cover s') 1 = 0).
        rewrite (Hout 1) by lia. reflexivity.
      * change (dst_get BaseCovcount (cover s') 1 = 5).
        rewrite (Hother BaseCovcount) by discriminate. reflexivity.
Defined.

Lemma observed_hits_ext (words : list Z) (b b' a a' : table) :
  (forall i, 0 <= i < Z.of_nat (List.length words) -> b i = b' i /\ a i = a' i) ->
  observed_hits words b a = observed_hits words b' a'.
Proof.
  intros H. unfold observed_hits, observed_slots. f_equal.
  apply hit_slots_ext. intros i Hi. destruct (H i) as [-> ->]; [lia | auto].
Qed.

Lemma observed_hits_quiet (words : list Z) (b a : table) :
  (forall i, 0 <= i < Z.of_nat (List.length words) -> nth (Z.to_nat i) words 0 <> 0 ->
             a i = b i) ->
  observed_hits words b a = [].
Proof.
  intros H. unfold observed_hits.
  destruct (observed_slots words b a) as [| i l] eqn:E; [reflexivity |].
  assert (Hin : In i (observed_slots words b a)) by (rewrite E; left; reflexivity).
  apply hit_slots_range in Hin. destruct Hin as (Hi & Hpc & Hne).
  rewrite table_of_list_nth in Hpc by lia.
  contradiction Hne. symmetry. apply H; [lia | exact Hpc].
Qed.

Lemma cover_reset_run (k : kernel) (cov : cover_t) (s : state) :
  fetch_succeeds k ->
  cover_reset k cov s
  = Done tt (set_cover
               (set_base_covcount
                  (table_blit (live_covcount k) (base_covcount (cover s)) MAX_COVSZ)
                  (cover s))
               (set_vmo (live_covcount k) s)).
Proof.
  intros [Hctl Hrd]. unfold cover_reset.
  rewrite snapshot_covcount_run by reflexivity.
  rewrite Hctl, Hrd. reflexivity.
Qed.

Lemma reset_collect_run (k1 k2 : kernel) (cov : cover_t) (s : state) (words : list Z) :
  fetch_succeeds k1 -> collect_succeeds k2 words ->
  let hits := observed_hits words (live_covcount k1) (live_covcount k2) in
  exists (s1 s2 : state),
    cover_reset k1 cov s = Done tt s1 /\
    cover_collect k2 cov s1
    = Done {| size := Z.of_nat (List.length hits); data := RealCoverageTruncated |} s2 /\
    borrowed_hits {| size := Z.of_nat (List.length hits); data := RealCoverageTruncated |}
                  s2 = Some hits.
Proof.
  intros Hreset Hcollect hits.
  eexists. 
  destruct (cover_collect_observed k2 cov
              (set_cover
                 (set_base_covcount
                    (table_blit (live_covcount k1) (base_covcount (cover s)) MAX_COVSZ)
                    (cover s))
                 (set_vmo (live_covcount k1) s))
              words Hcollect)
    as (t' & Hres & Hhits & _).
  cbn [cover set_cover set_base_covcount base_covcount] in Hres, Hhits.
  assert (E : observed_hits words
                (table_blit (live_covcount k1) (base_covcount (cover s)) MAX_COVSZ)
                (live_covcount k2)
              = hits).
  { apply observed_hits_ext. intros i Hi. split; [| reflexivity].
    destruct Hcollect as (_ & _ & _ & Hlen).
    apply table_blit_inside. lia. }
  rewrite E in Hres, Hhits.
  eexists. split; [apply cover_reset_run; exact Hreset |].
  split; [exact Hres | exact Hhits].
Qed.

(** X3.  A reset followed by a collection reports exactly the locations
    whose counter differs between the two snapshots: the result is the
    fixed-up value of every non-zero entry of the location file whose
    counter at collection time is not its counter at reset time, in file
    order, whatever the tables held before. *)
Theorem reset_then_collect_diff (k1 k2 : kernel) (cov : cover_t) (s : state)
    (words : list Z)
    (Hreset : fetch_succeeds k1) (Hcollect : collect_succeeds k2 words) :
  exists (s1 s2 : state) (cov' : cover_t),
    cover_reset k1 cov s = Done tt s1 /\
    cover_collect k2 cov s1 = Done cov' s2 /\
    size cov' = Z.of_nat (List.length (observed_hits words (live_covcount k1)
                                                     (live_covcount k2))) /\
    borrowed_hits cov' s2
    = Some (observed_hits words (live_covcount k1) (live_covcount k2)) /\
    forall i, In i (observed_slots words (live_covcount k1) (live_covcount k2)) <->
              0 <= i < Z.of_nat (List.length words) /\
              nth (Z.to_nat i) words 0 <> 0 /\
              live_covcount k1 i <> live_covcount k2 i.
Proof.
  destruct (reset_collect_run k1 k2 cov s words Hreset Hcollect)
    as (s1 & s2 & H1 & H2 & H3).
  exists s1, s2. eexists.
  split; [exact H1 | split; [exact H2 | split; [reflexivity | split; [exact H3 |]]]].
  intros i. unfold observed_slots. rewrite hit_slots_range. split.
  - intros (Hi & Hpc & Hne). rewrite table_of_list_nth in Hpc by lia.
    split; [lia | split; assumption].
  - intros (Hi & Hpc & Hne). rewrite table_of_list_nth by lia.
    split; [lia | split; assumption].
Qed.

Lemma reset_then_collect_diff_witness :
  exists (s1 s2 : state) (cov' : cover_t),
    cover_reset Scenario.kern_before Sample.cov0 Sample.start = Done tt s1 /\
    cover_collect Scenario.kern_later Sample.cov0 s1 = Done cov' s2 /\
    size cov' = 2 /\
    borrowed_hits cov' s2
    = Some [fixup_truncate Sample.loc_A; fixup_truncate 0x2000].
Proof.
  destruct (reset_then_collect_diff Scenario.kern_before Scenario.kern_later
              Sample.cov0 Sample.start [Sample.loc_A; Sample.loc_B; 0x2000])
    as (s1 & s2 & cov' & H1 & H2 & H3 & H4 & _).
  - split; reflexivity.
  - repeat split; vm_compute; reflexivity.
  - exists s1, s2, cov'.
    split; [exact H1 | split; [exact H2 | split; [exact H3 | exact H4]]].
Defined.

(** X4.  When no instrumented location's counter differs between the reset
    and the collection, the collection returns an empty result, also when
    counters of slots without a location moved. *)
Theorem reset_then_collect_quiet (k1 k2 : kernel) (cov : cover_t) (s : state)
    (words : list Z)
    (Hreset : fetch_succeeds k1) (Hcollect : collect_succeeds k2 words)
    (Hquiet : forall i, 0 <= i < Z.of_nat (List.length words) ->
                        nth (Z.to_nat i) words 0 <> 0 ->
                        live_covcount k2 i = live_covcount k1 i) :
  exists (s1 s2 : state) (cov' : cover_t),
    cover_reset k1 cov s = Done tt s1 /\
    cover_collect k2 cov s1 = Done cov' s2 /\
    size cov' = 0 /\
    borrowed_hits cov' s2 = Some [].
Proof.
  destruct (reset_collect_run k1 k2 cov s words Hreset Hcollect)
    as (s1 & s2 & H1 & H2 & H3).
  rewrite (observed_hits_quiet words _ _ Hquiet) in H2, H3.
  exists s1, s2. eexists.
  split; [exact H1 | split; [exact H2 | split; [reflexivity | exact H3]]].
Qed.

Lemma reset_then_collect_quiet_witness :
  exists (s1 s2 : state) (cov' : cover_t),
    cover_reset Sample.kern Sample.cov0 Sample.start = Done tt s1 /\
    cover_collect Sample.kern Sample.cov0 s1 = Done cov' s2 /\
    size cov' = 0 /\
    borrowed_hits cov' s2 = Some [].
Proof.
  apply (reset_then_collect_quiet Sample.kern Sample.kern Sample.cov0 Sample.start
           [Sample.loc_A; Sample.loc_B]).
  - split; reflexivity.
  - repeat split; vm_compute; reflexivity.
  - intros i Hi Hpc. reflexivity.
Defined.

(** X5.  A collection does not move the baseline: collecting again with
    the same kernel answers, without a reset in between, returns the same
    result and the same hit table. *)
Theorem cover_collect_twice (k : kernel) (cov : cover_t) (s : state) (words : list Z)
    (Hrun : collect_succeeds k words) :
  exists (cov1 : cover_t) (s1 s2 : state),
    cover_collect k cov s = Done cov1 s1 /\
    cover_collect k cov1 s1 = Done cov1 s2 /\
    borrowed_hits cov1 s2 = borrowed_hits cov1 s1 /\
    borrowed_hits cov1 s1
    = Some (observed_hits words (base_covcount (cover s)) (live_covcount k)).
Proof.
  destruct (cover_collect_observed k cov s words Hrun) as (t1 & Hres1 & Hhits1 & _).
  set (cov1 := {| size := Z.of_nat (List.length (observed_hits words
                                (base_covcount (cover s)) (live_covcount k)));
                  data := RealCoverageTruncated |}) in *.
  set (s1 := with_hits t1 (snapshot_state k words s)) in *.
  destruct (cover_collect_observed k cov1 s1 words Hrun) as (t2 & Hres2 & Hhits2 & _).
  change (base_covcount (cover s1)) with (base_covcount (cover s)) in Hres2, Hhits2.
  fold cov1 in Hres2, Hhits2.
  exists cov1, s1. eexists.
  split; [exact Hres1 | split; [exact Hres2 | split; [| exact Hhits1]]].
  rewrite Hhits1, Hhits2. reflexivity.
Qed.

Lemma cover_collect_twice_witness :
  exists (cov1 : cover_t) (s1 s2 : state),
    cover_collect Sample.kern Sample.cov0 Sample.start = Done cov1 s1 /\
    cover_collect Sample.kern cov1 s1 = Done cov1 s2 /\
    borrowed_hits cov1 s2 = Some [fixup_truncate Sample.loc_B].
Proof.
  destruct (cover_collect_twice Sample.kern Sample.cov0 Sample.start
              [Sample.loc_A; Sample.loc_B])
    as (cov1 & s1 & s2 & H1 & H2 & H3 & H4).
  - repeat split; vm_compute; reflexivity.
  - exists cov1, s1, s2. split; [exact H1 | split; [exact H2 |]].
    rewrite H3. exact H4.
Defined.

(** X7.  A collection returns exactly when the counter fetch and copy
    succeed and the location file opens and holds fewer entries than the
    capacity; in every other case it dies in [fail]. *)
Theorem cover_collect_returns_iff (k : kernel) (cov : cover_t) (s : state) :
  ((exists cov' s', cover_collect k cov s = Done cov' s') <->
   (exists words, collect_succeeds k words)) /\
  ((forall words, ~ collect_succeeds k words) ->
   exists msg s', cover_collect k cov s = Fatal msg s').
Proof.
  split; [split |].
  - intros (cov' & s' & Hdone).
    destruct (cover_collect_cases k cov s) as [Hok | (msg & s2 & Hfatal)];
      [exact Hok | rewrite Hfatal in Hdone; discriminate Hdone].
  - intros [words Hrun].
    destruct (cover_collect_run k cov s words Hrun) as (t' & Hres & _).
    eexists. eexists. exact Hres.
  - intros Hno.
    destruct (cover_collect_cases k cov s) as [[words Hok] | Hfatal];
      [contradiction (Hno words Hok) | exact Hfatal].
Qed.

(** X8.  Two locations are reported as the same 32-bit value exactly when
    they differ by a multiple of 2^32: the report tells apart all the
    locations of one 4 GiB-aligned window and nothing beyond it. *)
Theorem fixup_truncate_collide (v1 v2 : Z) :
  (fixup_truncate v1 = fixup_truncate v2 <-> (v1 - v2) mod 2 ^ 32 = 0) /\
  (v1 / 2 ^ 32 = v2 / 2 ^ 32 -> fixup_truncate v1 = fixup_truncate v2 -> v1 = v2).
Proof.
  assert (Hiff : fixup_truncate v1 = fixup_truncate v2 <-> (v1 - v2) mod 2 ^ 32 = 0).
  { rewrite !fixup_truncate_reported. unfold reported.
    change 0xFFFFFFFF with (Z.ones 32). rewrite !Z.land_ones by lia. split.
    - intros H. replace (v1 - v2) with ((v1 + 1) - (v2 + 1)) by lia.
      rewrite Zminus_mod, H, Z.sub_diag. reflexivity.
    - intros H. replace (v1 + 1) with ((v2 + 1) + (v1 - v2)) by lia.
      rewrite Zplus_mod, H, Z.add_0_r. apply Z.mod_mod. lia. }
  split; [exact Hiff |].
  intros Hwin Heq. apply Hiff in Heq.
  pose proof (Z.div_mod v1 (2 ^ 32)) as E1.
  pose proof (Z.div_mod v2 (2 ^ 32)) as E2.
  pose proof (Z.mod_pos_bound v1 (2 ^ 32)) as B1.
  pose proof (Z.mod_pos_bound v2 (2 ^ 32)) as B2.
  apply Z.mod_divide in Heq; [| lia]. destruct Heq as [q Hq].
  rewrite Hwin in E1. lia.
Qed.

Lemma fixup_truncate_collide_witness :
  fixup_truncate 0xffffffff80001234 <> fixup_truncate 0xffffffff80001238 /\
  fixup_truncate 0xffffffff80001234 = fixup_truncate 0x80001234.
Proof.
  split.
  - intros H.
    apply (proj2 (fixup_truncate_collide 0xffffffff80001234 0xffffffff80001238)) in H;
      [discriminate H | reflexivity].
  - apply (proj1 (fixup_truncate_collide 0xffffffff80001234 0x80001234)). reflexivity.
Defined.

Lemma observed_hits_length (words : list Z) (b a : table) :
  (List.length (observed_hits words b a) <= List.length words)%nat.
Proof.
  unfold observed_hits, observed_slots. rewrite length_map. apply hit_slots_length.
Qed.

Lemma table_prefix_nth (t : table) (n m : nat) :
  (m < n)%nat -> nth m (table_prefix t n) 0 = t (Z.of_nat m).
Proof.
  intros H. unfold table_prefix.
  pose proof (map_nth (fun j => t (Z.of_nat j)) (seq 0 n) 0%nat m) as E.
  cbv beta in E. change (Z.of_nat 0) with 0 in E.
  rewrite (nth_indep _ 0 (t 0)) by (rewrite length_map, length_seq; exact H).
  rewrite E, seq_nth by exact H. reflexivity.
Qed.

(** X6.  The result of a collection is a view of the one hit table, not a
    copy: after the next collection the earlier result reads the new hits,
    followed, when the new result is shorter, by what is left of the old
    ones. *)
Theorem cover_collect_overwrites (k1 k2 : kernel) (cov : cover_t) (s : state)
    (words1 words2 : list Z)
    (Hrun1 : collect_succeeds k1 words1) (Hrun2 : collect_succeeds k2 words2) :
  let hits1 := observed_hits words1 (base_covcount (cover s)) (live_covcount k1) in
  let hits2 := observed_hits words2 (base_covcount (cover s)) (live_covcount k2) in
  exists (cov1 cov2 : cover_t) (s1 s2 : state),
    cover_collect k1 cov s = Done cov1 s1 /\
    borrowed_hits cov1 s1 = Some hits1 /\
    cover_collect k2 cov s1 = Done cov2 s2 /\
    borrowed_hits cov2 s2 = Some hits2 /\
    borrowed_hits cov1 s2
    = Some (firstn (List.length hits1)
                   (hits2 ++ skipn (List.length hits2) hits1)).
Proof.
  intros hits1 hits2.
  destruct (cover_collect_observed k1 cov s words1 Hrun1)
    as (t1 & Hres1 & Hhits1 & Hval1 & _).
  fold hits1 in Hres1, Hhits1, Hval1.
  set (cov1 := {| size := Z.of_nat (List.length hits1);
                  data := RealCoverageTruncated |}) in *.
  set (s1 := with_hits t1 (snapshot_state k1 words1 s)) in *.
  destruct (cover_collect_observed k2 cov s1 words2 Hrun2)
    as (t2 & Hres2 & Hhits2 & Hval2 & Hframe2).
  change (base_covcount (cover s1)) with (base_covcount (cover s))
    in Hres2, Hhits2, Hval2, Hframe2.
  change (real_coverage_truncated (cover s1)) with t1 in Hframe2.
  fold hits2 in Hres2, Hhits2, Hval2, Hframe2.
  exists cov1. eexists. exists s1. eexists.
  split; [exact Hres1 | split; [exact Hhits1 | split; [exact Hres2 |
    split; [exact Hhits2 |]]]].
  pose proof (observed_hits_length words1 (base_covcount (cover s)) (live_covcount k1))
    as Hle1.
  fold hits1 in Hle1.
  destruct Hrun1 as (_ & _ & _ & Hlen1).
  unfold borrowed_hits, cov1. cbn [data size].
  replace (0 <=? Z.of_nat (List.length hits1)) with true
    by (symmetry; apply Z.leb_le; lia).
  replace (Z.of_nat (List.length hits1) <=? MAX_COVSZ) with true
    by (symmetry; apply Z.leb_le; lia).
  cbn [andb]. rewrite Nat2Z.id. f_equal.
  change (real_coverage_truncated (cover (with_hits t2 (snapshot_state k2 words2 s1))))
    with t2.
  assert (Hlenr : List.length (firstn (List.length hits1)
                                      (hits2 ++ skipn (List.length hits2) hits1))
                  = List.length hits1).
  { rewrite length_firstn, length_app, length_skipn. lia. }
  apply (nth_ext _ _ 0 0).
  - unfold table_prefix. rewrite length_map, length_seq. symmetry. exact Hlenr.
  - intros m Hm. unfold table_prefix in Hm. rewrite length_map, length_seq in Hm.
    rewrite table_prefix_nth by exact Hm.
    rewrite nth_firstn.
    replace (m <? List.length hits1)%nat with true
      by (symmetry; apply Nat.ltb_lt; exact Hm).
    destruct (Nat.lt_ge_cases m (List.length hits2)) as [Hin | Hout].
    + rewrite app_nth1 by exact Hin. apply Hval2. exact Hin.
    + rewrite app_nth2 by exact Hout. rewrite nth_skipn.
      replace (List.length hits2 + (m - List.length hits2))%nat with m by lia.
      rewrite Hframe2 by lia. apply Hval1. exact Hm.
Qed.

Lemma cover_collect_overwrites_witness :
  exists (cov1 cov2 : cover_t) (s1 s2 : state),
    cover_collect Scenario.kern_later Sample.cov0 Sample.start = Done cov1 s1 /\
    borrowed_hits cov1 s1 = Some [fixup_truncate Sample.loc_A; fixup_truncate 0x2000] /\
    cover_collect Sample.kern Sample.cov0 s1 = Done cov2 s2 /\
    borrowed_hits cov2 s2 = Some [fixup_truncate Sample.loc_B] /\
    borrowed_hits cov1 s2 = Some [fixup_truncate Sample.loc_B; fixup_truncate 0x2000].
Proof.
  apply (cover_collect_overwrites Scenario.kern_later Sample.kern Sample.cov0
           Sample.start [Sample.loc_A; Sample.loc_B; 0x2000]
           [Sample.loc_A; Sample.loc_B]);
    repeat split; vm_compute; reflexivity.
Defined.

(** ** More on the return-code normaliser *)

(** X9.  For a kernel-native call the normalised result is 0 or -1 and
    nothing else; it is 0 exactly when the raw result is zero or the call
    is on the allow-list, and then the state is the one the call left. *)
Theorem execute_syscall_native_result (c : call_t) (a : nat -> Z) (s s' : state)
    (raw : Z)
    (Hcall : raw_call c a s = Done raw s')
    (Hzx : kernel_native (name c))
    (Hstr : no_nul (name c) = true) :
  exists (r : Z) (s2 : state),
    execute_syscall c a s = Done r s2 /\
    (r = 0 \/ r = -1) /\
    (r = 0 <-> raw = 0 \/ In (name c) allow_list) /\
    (r = 0 -> s2 = s').
Proof.
  destruct (Z.eq_dec raw 0) as [Hraw | Hraw];
    [| destruct (in_dec string_dec (name c) allow_list) as [Hin | Hout]].
  - exists 0, s'. split; [| split; [left; reflexivity | split; [tauto | reflexivity]]].
    unfold execute_syscall, bind. unfold raw_call in Hcall. rewrite Hcall.
    apply strncmp_zx in Hzx. rewrite Hzx, Z.eqb_refl. subst raw. reflexivity.
  - exists 0, s'. split; [| split; [left; reflexivity | split; [tauto | reflexivity]]].
    unfold execute_syscall, bind. unfold raw_call in Hcall. rewrite Hcall.
    pose proof (allow_listed_true (name c) raw Hin) as [_ Hlist].
    apply strncmp_zx in Hzx. rewrite Hzx, Z.eqb_refl, Hlist. reflexivity.
  - exists (-1), (set_errno (Z.land (intptr (- raw)) 0x7f) s').
    split; [| split; [right; reflexivity | split]].
    + unfold execute_syscall, bind. unfold raw_call in Hcall. rewrite Hcall.
      apply strncmp_zx in Hzx.
      rewrite Hzx, Z.eqb_refl, (allow_listed_false (name c) raw Hstr Hout Hraw).
      reflexivity.
    + split; [discriminate | tauto].
    + discriminate.
Qed.

Lemma execute_syscall_native_result_witness :
  exists (r : Z) (s2 : state),
    execute_syscall (Sample.returning "zx_clock_get_monotonic_via_kernel" 77)
                    Sample.args Sample.start = Done r s2 /\
    r = -1.
Proof.
  destruct (execute_syscall_native_result
              (Sample.returning "zx_clock_get_monotonic_via_kernel" 77)
              Sample.args Sample.start Sample.start 77)
    as (r & s2 & Hrun & [H0 | H1] & Hiff & _).
  - reflexivity.
  - exists "clock_get_monotonic_via_kernel"%string. reflexivity.
  - reflexivity.
  - exfalso. apply Hiff in H0. destruct H0 as [H0 | H0]; [discriminate H0 |].
    vm_compute in H0.
    repeat (destruct H0 as [H0 | H0]; [discriminate H0 |]). exact H0.
  - exists r, s2. split; [exact Hrun | exact H1].
Defined.

(** X10.  On the failure path of a kernel-native call the stored error code
    is [(-raw) mod 128], hence between 0 and 127: a status between -127 and
    -1 is stored as its absolute value, and a raw result that is a non-zero
    multiple of 128 reports a failure with error code 0. *)
Theorem execute_syscall_errno_range (c : call_t) (a : nat -> Z) (s s' s2 : state)
    (raw : Z)
    (Hcall : raw_call c a s = Done raw s')
    (Hzx : kernel_native (name c))
    (Hfail : execute_syscall c a s = Done (-1) s2) :
  errno s2 = (- raw) mod 128 /\
  0 <= errno s2 <= 127 /\
  (-127 <= raw <= -1 -> errno s2 = - raw) /\
  (raw mod 128 = 0 -> errno s2 = 0).
Proof.
  assert (He : errno s2 = (- raw) mod 128).
  { unfold execute_syscall, bind in Hfail. unfold raw_call in Hcall.
    rewrite Hcall in Hfail. apply strncmp_zx in Hzx. rewrite Hzx, Z.eqb_refl in Hfail.
    cbv beta iota in Hfail.
    match type of Hfail with
    | context [if ?b then _ else _] => destruct b
    end.
    - discriminate Hfail.
    - unfold modify, ret in Hfail. injection Hfail as <-.
      cbn [errno set_errno]. rewrite land_intptr_7f.
      change 0x7f with (Z.ones 7). rewrite Z.land_ones by lia. reflexivity. }
  rewrite He.
  pose proof (Z.mod_pos_bound (- raw) 128) as Hb.
  split; [reflexivity | split; [lia | split]].
  - intros Hr. apply Z.mod_small. lia.
  - intros Hm. apply Z.mod_divide in Hm; [| lia]. destruct Hm as [q ->].
    replace (- (q * 128)) with ((- q) * 128) by lia. apply Z_mod_mult.
Qed.

Lemma execute_syscall_errno_range_witness :
  errno (final_state (execute_syscall (Sample.returning "zx_handle_close" (-128))
                                      Sample.args Sample.start)) = 0 /\
  errno (final_state (execute_syscall (Sample.returning "zx_handle_close" (-10))
                                      Sample.args Sample.start)) = 10.
Proof.
  assert (Hzx : kernel_native "zx_handle_close")
    by (exists "handle_close"%string; reflexivity).
  split.
  - apply (execute_syscall_errno_range (Sample.returning "zx_handle_close" (-128))
             Sample.args Sample.start Sample.start _ (-128));
      [reflexivity | exact Hzx | reflexivity | reflexivity].
  - apply (execute_syscall_errno_range (Sample.returning "zx_handle_close" (-10))
             Sample.args Sample.start Sample.start _ (-10));
      [reflexivity | exact Hzx | reflexivity | lia].
Defined.

(** ** More on the result reporter *)

Section ReporterMore.

Variables call_flag_executed call_flag_finished : Z.
Variables call_flag_blocked call_flag_fault_injected : Z.
Variable kOutMagic : Z.
Variable sizeof_call_reply : Z.

Local Abbreviation reply_of :=
  (build_reply call_flag_executed call_flag_finished
               call_flag_blocked call_flag_fault_injected kOutMagic).
Local Abbreviation report :=
  (write_call_output call_flag_executed call_flag_finished
                     call_flag_blocked call_flag_fault_injected
                     kOutMagic sizeof_call_reply).

(** X11.  Whatever the pipe answers, a report only appends to the pipe,
    the header first and nothing but hit tables after it: one write when
    coverage reporting is off, at most two without full coverage, and never
    more than three.  The [cover] context, the counter region and the
    scheduling and coverage settings are as before. *)
Theorem write_call_output_only_pipe (k : kernel) (th : thread_t) (finished : bool)
    (s : state) :
  exists (e : write_event) (tables : list write_event),
    pipe (final_state (report k th finished s)) = pipe s ++ e :: tables /\
    ev_buf e = BufReply (reply_of th finished s) /\
    Forall is_table tables /\
    (List.length tables <= 2)%nat /\
    (flag_coverage s = false -> tables = []) /\
    (flag_collect_cover s = false -> (List.length tables <= 1)%nat) /\
    cover (final_state (report k th finished s)) = cover s /\
    vmo (final_state (report k th finished s)) = vmo s /\
    same_settings s (final_state (report k th finished s)).
Proof.
  unfold write_call_output, bind, get, write, read_hits, fail, ret, same_settings.
  cbn [pipe set_pipe cover].
  change (borrowed_hits (cov th) (set_pipe ?p s)) with (borrowed_hits (cov th) s).
  destruct (flag_coverage s) eqn:Efc, (flag_collect_cover s) eqn:Ecc;
    cbn [negb]; cbv beta iota;
    repeat (match goal with
            | |- context [if ?b then _ else _] => destruct b
            | |- context [match borrowed_hits ?c ?st with _ => _ end] =>
                destruct (borrowed_hits c st)
            end; cbn [negb]; cbv beta iota);
    cbn [final_state]; unfold set_pipe;
    cbn [cover errno vmo last_scheduled flag_coverage flag_collect_cover pipe];
    rewrite <- ?app_assoc; cbn [app];
    eexists; eexists; (split; [reflexivity |]); cbn [ev_buf List.length];
    (split; [reflexivity |]);
    (split; [repeat (apply Forall_cons; [eexists; reflexivity |]); apply Forall_nil |]);
    (split; [lia |]);
    (split; [intros; (discriminate || reflexivity) |]);
    (split; [intros; (discriminate || lia) |]);
    repeat split; (reflexivity || assumption).
Qed.

(** X12.  When the pipe does not take the whole header, the report dies
    right there: the header is the only write and no table follows,
    whatever the coverage flags. *)
Theorem write_call_output_header_cut (k : kernel) (th : thread_t) (finished : bool)
    (s : state)
    (Hcut : u64 (write_result k (List.length (pipe s)) sizeof_call_reply)
            <> u64 sizeof_call_reply) :
  exists s' : state,
    report k th finished s = Fatal "control pipe call write failed" s' /\
    pipe s'
    = pipe s ++ [{| ev_buf := BufReply (reply_of th finished s);
                    ev_count := sizeof_call_reply;
                    ev_ret := write_result k (List.length (pipe s))
                                           sizeof_call_reply |}].
Proof.
  unfold write_call_output, bind, get, write.
  apply Z.eqb_neq in Hcut. rewrite Hcut. cbn [negb].
  eexists. split; reflexivity.
Qed.

(** X13.  When the pipe takes the header but not the whole signal table,
    the report dies after the second write: the coverage table is not
    written even with full coverage on. *)
Theorem write_call_output_signal_cut (k : kernel) (th : thread_t) (finished : bool)
    (s : state) (hits : list Z)
    (Hcov : flag_coverage s = true)
    (Hhits : borrowed_hits (cov th) s = Some hits)
    (Hheader : write_result k (List.length (pipe s)) sizeof_call_reply
               = sizeof_call_reply)
    (Hcut : u64 (write_result k (S (List.length (pipe s)))
                              (u64 (size (cov th) * sizeof_uint32_t)))
            <> u64 (sizeof_uint32_t * size (cov th))) :
  exists (s' : state) (new : list write_event),
    report k th finished s = Fatal "signals table write failed. Wrote %zd\n" s' /\
    pipe s' = pipe s ++ new /\
    map ev_buf new = [BufReply (reply_of th finished s); BufTable hits].
Proof.
  unfold write_call_output, bind, get, write, read_hits.
  rewrite Hheader, Z.eqb_refl, Hcov. cbn [negb].
  change (borrowed_hits (cov th) (set_pipe ?p s)) with (borrowed_hits (cov th) s).
  rewrite Hhits. cbn [pipe set_pipe].
  rewrite length_app, Nat.add_comm. cbn [List.length Nat.add].
  apply Z.eqb_neq in Hcut. rewrite Hcut. cbn [negb].
  unfold fail. eexists. eexists. split; [reflexivity |].
  cbn [pipe set_pipe]. rewrite <- app_assoc. cbn [app].
  split; reflexivity.
Qed.

Hypothesis executed_nonzero : call_flag_executed <> 0.
Hypothesis finished_nonzero : call_flag_finished <> 0.
Hypothesis blocked_nonzero : call_flag_blocked <> 0.
Hypothesis fault_nonzero : call_flag_fault_injected <> 0.
Hypothesis executed_finished : Z.land call_flag_executed call_flag_finished = 0.
Hypothesis executed_blocked : Z.land call_flag_executed call_flag_blocked = 0.
Hypothesis executed_fault : Z.land call_flag_executed call_flag_fault_injected = 0.
Hypothesis finished_blocked : Z.land call_flag_finished call_flag_blocked = 0.
Hypothesis finished_fault : Z.land call_flag_finished call_flag_fault_injected = 0.
Hypothesis blocked_fault : Z.land call_flag_blocked call_flag_fault_injected = 0.

(** X14.  With four non-zero, pairwise disjoint flag masks the flag set of
    a header can be read back exactly: blocked tells that the call record
    is not the one scheduled last, finished repeats the [finished]
    argument, fault-injected tells a finished call with a fault injected,
    and executed is always there.  The error code of a finished call that
    returned -1 is the call's own error code. *)
Theorem build_reply_flags_decode (th : thread_t) (finished : bool) (s : state) :
  let flags := reply_flags (reply_of th finished s) in
  has_flag flags call_flag_executed = true /\
  has_flag flags call_flag_blocked = negb (th_addr th =? last_scheduled s) /\
  has_flag flags call_flag_finished = finished /\
  has_flag flags call_flag_fault_injected = finished && fault_injected th /\
  (finished = true -> res th = -1 ->
   reply_reserrno (reply_of th finished s) = reserrno th).
Proof.
  assert (Hbf : Z.land call_flag_blocked call_flag_finished = 0)
    by (rewrite Z.land_comm; exact finished_blocked).
  assert (Hfb : Z.land call_flag_fault_injected call_flag_blocked = 0)
    by (rewrite Z.land_comm; exact blocked_fault).
  assert (Hff : Z.land call_flag_fault_injected call_flag_finished = 0)
    by (rewrite Z.land_comm; exact finished_fault).
  cbn zeta. cbn [build_reply reply_flags reply_reserrno].
  repeat match goal with |- _ /\ _ => split end.
  - destruct finished; rewrite !has_flag_lor, (has_flag_self _ executed_nonzero);
      reflexivity.
  - destruct finished, (negb (th_addr th =? last_scheduled s)), (fault_injected th);
      rewrite !has_flag_lor;
      rewrite ?(has_flag_self _ blocked_nonzero),
              ?(has_flag_disjoint _ _ executed_blocked),
              ?(has_flag_disjoint _ _ finished_blocked),
              ?(has_flag_disjoint _ _ Hfb), ?has_flag_0;
      reflexivity.
  - destruct finished, (negb (th_addr th =? last_scheduled s)), (fault_injected th);
      rewrite !has_flag_lor;
      rewrite ?(has_flag_self _ finished_nonzero),
              ?(has_flag_disjoint _ _ executed_finished),
              ?(has_flag_disjoint _ _ Hbf),
              ?(has_flag_disjoint _ _ Hff), ?has_flag_0;
      reflexivity.
  - destruct finished, (negb (th_addr th =? last_scheduled s)), (fault_injected th);
      rewrite !has_flag_lor;
      rewrite ?(has_flag_self _ fault_nonzero),
              ?(has_flag_disjoint _ _ executed_fault),
              ?(has_flag_disjoint _ _ blocked_fault),
              ?(has_flag_disjoint _ _ finished_fault), ?has_flag_0;
      reflexivity.
  - intros -> Hres. rewrite Hres. reflexivity.
Qed.

End ReporterMore.

Lemma write_call_output_header_cut_witness :
  exists (s' : state) (e : write_event),
    Sample.report Scenario.kern_closed_pipe Sample.th_ok true Sample.start
    = Fatal "control pipe call write failed" s' /\
    pipe s' = [e] /\
    ev_ret e = -1.
Proof.
  destruct (write_call_output_header_cut
              Sample.flag_executed Sample.flag_finished Sample.flag_blocked
              Sample.flag_fault_injected Sample.magic Sample.reply_bytes
              Scenario.kern_closed_pipe Sample.th_ok true Sample.start)
    as (s' & Hrun & Hsent).
  - vm_compute. discriminate.
  - exists s'. eexists.
    split; [exact Hrun | split; [exact Hsent | reflexivity]].
Defined.

Lemma write_call_output_signal_cut_witness :
  exists (s' : state) (new : list write_event),
    Sample.report Scenario.kern_short_pipe Sample.th_collected true Sample.after_collect
    = Fatal "signals table write failed. Wrote %zd\n" s' /\
    pipe s' = pipe Sample.after_collect ++ new /\
    map ev_buf new
    = [BufReply (Sample.reply_of Sample.th_collected true Sample.after_collect);
       BufTable [fixup_truncate Sample.loc_B]].
Proof.
  apply (write_call_output_signal_cut
           Sample.flag_executed Sample.flag_finished Sample.flag_blocked
           Sample.flag_fault_injected Sample.magic Sample.reply_bytes
           Scenario.kern_short_pipe Sample.th_collected true Sample.after_collect).
  - vm_compute. reflexivity.
  - vm_compute. reflexivity.
  - vm_compute. reflexivity.
  - vm_compute. discriminate.
Defined.

Lemma build_reply_flags_decode_witness :
  let flags := reply_flags (Sample.reply_of Sample.th_failed true Sample.start) in
  has_flag flags Sample.flag_blocked = true /\
  has_flag flags Sample.flag_finished = true /\
  has_flag flags Sample.flag_fault_injected = true /\
  reply_reserrno (Sample.reply_of Sample.th_failed true Sample.start) = 14.
Proof.
  destruct (build_reply_flags_decode
              Sample.flag_executed Sample.flag_finished Sample.flag_blocked
              Sample.flag_fault_injected Sample.magic)
    with (th := Sample.th_failed) (finished := true) (s := Sample.start)
    as (_ & Hb & Hf & Hi & He);
    try reflexivity; try discriminate.
  cbv zeta. split; [exact Hb | split; [exact Hf | split; [exact Hi |]]].
  apply He; reflexivity.
Defined.

(** ** More on the location-table reader *)

(** X15.  Reading the location table leaves in place what lies beyond the
    read: the entries of the destination after the one that follows the
    last item read keep their old values, so a shorter table read over a
    longer one leaves the old tail, and the other tables, the size field,
    the hit table, the counter region, the pipe and the settings are as
    before, whether the read returns or dies. *)
Theorem snapshot_sancov_frame (k : kernel) (dst : dst_table) (elems : Z)
    (filename : string) (s : state) (Hcap : 0 <= elems <= MAX_COVSZ) :
  let s' := final_state (snapshot_sancov k dst elems filename s) in
  (forall words i,
      file_words k filename = Some words ->
      fread_count words elems < i ->
      dst_get dst (cover s') i = dst_get dst (cover s) i) /\
  (file_words k filename = None -> cover s' = cover s) /\
  (forall d, d <> dst -> dst_get d (cover s') = dst_get d (cover s)) /\
  real_coverage_truncated (cover s') = real_coverage_truncated (cover s) /\
  total_pcs (cover s') = total_pcs (cover s) /\
  vmo s' = vmo s /\ pipe s' = pipe s /\ same_settings s s'.
Proof.
  unfold snapshot_sancov.
  destruct (file_words k filename) as [words |] eqn:Hfile.
  - assert (Hfit : (fread_count words elems <=? MAX_COVSZ) = true)
      by (apply Z.leb_le; unfold fread_count; lia).
    unfold bind, blit_into. rewrite Hfit.
    assert (Hsame : final_state
                      ((if fread_count words elems =? elems
                        then fail "pc table is too small. make it bigger."
                        else ret (fread_count words elems))
                         (set_cover
                            (dst_set dst
                               (table_blit (table_of_list words)
                                  (dst_get dst (cover s)) (fread_count words elems))
                               (cover s)) s))
                    = set_cover
                        (dst_set dst
                           (table_blit (table_of_list words)
                              (dst_get dst (cover s)) (fread_count words elems))
                           (cover s)) s)
      by (destruct (fread_count words elems =? elems); reflexivity).
    cbv zeta. rewrite Hsame. cbn [cover set_cover vmo pipe].
    repeat match goal with |- _ /\ _ => split end.
    + intros w i Hw Hi. injection Hw as <-.
      destruct dst; cbn; apply table_blit_outside; lia.
    + intros H. discriminate H.
    + intros d Hd. destruct d, dst; try reflexivity; contradiction Hd; reflexivity.
    + destruct dst; reflexivity.
    + destruct dst; reflexivity.
    + reflexivity.
    + reflexivity.
    + unfold same_settings. cbn. repeat split; reflexivity.
  - cbv zeta. cbn [final_state fail].
    repeat match goal with |- _ /\ _ => split end; try reflexivity.
    unfold same_settings. repeat split; reflexivity.
Qed.

Lemma snapshot_sancov_frame_witness :
  pc_table (cover (final_state
                     (snapshot_sancov Scenario.kern_before PcTable 8 kCovPcsFileName
                                      (final_state
                                         (snapshot_sancov Scenario.kern_later PcTable 8
                                            kCovPcsFileName Sample.start))))) 3
  = pc_table (cover (final_state
                       (snapshot_sancov Scenario.kern_later PcTable 8
                          kCovPcsFileName Sample.start))) 3.
Proof.
  apply (snapshot_sancov_frame Scenario.kern_before PcTable 8 kCovPcsFileName)
    with (words := [Sample.loc_A; Sample.loc_B]).
  - vm_compute. split; discriminate.
  - reflexivity.
  - vm_compute. reflexivity.
Defined.

(** ** Resets and earlier results *)

(** X16.  A reset never touches the hit table: a result handed out by a
    collection reads the same before and after the next reset, whether the
    reset returns or dies. *)
Theorem cover_reset_keeps_result (k : kernel) (cov cov' : cover_t) (s : state) :
  borrowed_hits cov' (final_state (cover_reset k cov s)) = borrowed_hits cov' s /\
  total_pcs (cover (final_state (cover_reset k cov s))) = total_pcs (cover s) /\
  pc_table (cover (final_state (cover_reset k cov s))) = pc_table (cover s) /\
  curr_covcount (cover (final_state (cover_reset k cov s))) = curr_covcount (cover s).
Proof.
  unfold cover_reset. rewrite snapshot_covcount_run by reflexivity.
  destruct (negb (coverage_ctl_status k 2 =? ZX_OK));
    [| destruct (negb (vmo_read_status k =? ZX_OK))];
    repeat split; reflexivity.
Qed.
